(** * SooraExpress backend: a shallow embedding of the route handlers

    The development follows the Express route files of the backend:
    - [routes/users.ts]    (profile and address handlers)   -> [Module Users]
    - [routes/products.ts] (public catalogue)               -> [Module Products]
    - [routes/admin.ts]    (admin dashboard)                -> [Module Admin]

    Every handler is an [async] function that talks to the database through
    the Prisma client and answers with [res.json] / [res.status(n).json].
    Here a handler is a function from the database to a reply and the
    database after the request.  Calls to the Prisma client are sequenced in
    a small state-and-exception monad: an exception thrown by a call keeps
    the writes made before it (the handlers use no transaction) and is turned
    into a 500 reply by the handler's [try]/[catch].

    What the model takes as given:
    - one request runs at a time (no interleaving of two handlers);
    - a table is a finite map from row ids to rows; the id of a new row is
      chosen by the store and handed to the handler as [newId];
    - prices and totals are rationals, counters and instants are integers;
      the rounding of JavaScript numbers is not modelled, the values
      [Infinity] and [NaN] of a division are;
    - strings are sequences of 7-bit characters;
    - the validators of [middleware/validators] and the Prisma schema are not
      among the sources: a handler receives the outcome of
      [validationResult], and the enum of order statuses is a parameter. *)

From Stdlib Require Import ZArith QArith Qround Ascii String Sorted.
From stdpp Require Import gmap strings list fin_maps sorting.
From Equations Require Import Equations.

Close Scope Q_scope.
Open Scope string_scope.
Open Scope Z_scope.

(** ** Replies *)

(** [res.json(x)] is [Json 200 x], [res.status(201).json(x)] is [Json 201 x],
    [res.status(400).json({ errors })] is [Invalid errors] and
    [res.status(n).json({ error: msg })] is [Failure n msg]. *)
Inductive Reply (A : Type) : Type :=
  | Json (status : Z) (body : A)
  | Invalid (errors : list string)
  | Failure (status : Z) (error : string).
Arguments Json {A} status body.
Arguments Invalid {A} errors.
Arguments Failure {A} status error.

(** ** The Prisma monad: state of the store plus thrown exceptions *)

Section PrismaMonad.
Context {St : Type}.

Definition Prisma (A : Type) : Type := St -> (string + A) * St.

Definition ret {A} (x : A) : Prisma A := fun s => (inr x, s).

Definition throw {A} (msg : string) : Prisma A := fun s => (inl msg, s).

Definition bind {A B} (m : Prisma A) (k : A -> Prisma B) : Prisma B :=
  fun s =>
    match m s with
    | (inl msg, s') => (inl msg, s')
    | (inr x, s') => k x s'
    end.

Definition get : Prisma St := fun s => (inr s, s).

Definition modify (f : St -> St) : Prisma unit := fun s => (inr tt, f s).

(** [try { ... } catch (error) { res.status(500).json({ error: error.message }) }] *)
Definition handle {A} (m : Prisma (Reply A)) : St -> Reply A * St :=
  fun s =>
    match m s with
    | (inl msg, s') => (Failure 500 msg, s')
    | (inr r, s') => (r, s')
    end.
End PrismaMonad.
Arguments Prisma St A : clear implicits.

Notation "'let*' x ':=' m 'in' k" := (bind m (fun x => k))
  (at level 10, x pattern, m at level 100, k at level 200).

(** ** The schema

    The Prisma schema file is not part of the sources at hand; the rows below
    carry the columns the handlers and the specification name.  The primary
    key [id] of every table is the key of the finite map that holds it.
    Columns written from optional request fields are nullable. *)

Record User := {
    email : string;
    userName : option string;
    phone : option string;
    role : string;
    tier : string
  }.

Record Address := {
    userId : string;
    type : option string;
    name : option string;
    street : option string;
    unit_ : option string;
    building : option string;
    postalCode : option string;
    district : option string;
    isDefault : bool;
    deliveryNotes : option string
  }.

Global Instance Address_eq_dec : EqDecision Address.
Proof. solve_decision. Defined.

(** A JavaScript value that is a boolean or [undefined] is truthy exactly
    when it is [true]. *)
Definition truthy (b : option bool) : bool :=
  match b with Some true => true | _ => false end.

(** Prisma leaves a column alone when the [data] field is [undefined]. *)
Definition assign {A} (field : option A) (old : A) : A :=
  match field with Some v => v | None => old end.

Record Review := {
    reviewProduct : string;
    reviewUser : string;
    rating : Z;
    comment : option string;
    isPublished : bool
  }.

Record Product := {
    productName : string;
    slug : string;
    description : string;
    price : Q;
    stock : Z;
    category : string;
    brand : string;
    isActive : bool;
    isFeatured : bool;
    viewCount : Z;
    salesCount : Z;
    lowStockAlert : Z;
    productCreatedAt : Z
  }.

Record OrderItem := {
    itemOrder : string;
    itemProduct : string;
    quantity : Z;
    itemPrice : Q
  }.

Record Order := {
    orderUser : string;
    orderAddress : string;
    status : string;
    total : Q;
    orderCreatedAt : Z;
    deliveredAt : option Z
  }.

(** The database: one finite map per table, keyed by the row id. *)
Record Db := {
    users : gmap string User;
    addresses : gmap string Address;
    products : gmap string Product;
    reviews : gmap string Review;
    orders : gmap string Order;
    orderItems : gmap string OrderItem
  }.

Definition set_addresses (f : gmap string Address -> gmap string Address) (db : Db) : Db :=
  {| users := users db; addresses := f (addresses db); products := products db;
     reviews := reviews db; orders := orders db; orderItems := orderItems db |}.

Definition set_products (f : gmap string Product -> gmap string Product) (db : Db) : Db :=
  {| users := users db; addresses := addresses db; products := f (products db);
     reviews := reviews db; orders := orders db; orderItems := orderItems db |}.

Definition set_orders (f : gmap string Order -> gmap string Order) (db : Db) : Db :=
  {| users := users db; addresses := addresses db; products := products db;
     reviews := reviews db; orders := f (orders db); orderItems := orderItems db |}.

(** ** Prisma client calls

    [prisma.address], [prisma.product] and [prisma.order] are delegates for
    one table each: how to read the table and how to write it back. *)
Record Delegate (Row : Type) := {
    rows : Db -> gmap string Row;
    over : (gmap string Row -> gmap string Row) -> Db -> Db
  }.
Arguments rows {Row} _ _.
Arguments over {Row} _ _ _.

Definition prisma_address : Delegate Address :=
  {| rows := addresses; over := set_addresses |}.
Definition prisma_product : Delegate Product :=
  {| rows := products; over := set_products |}.
Definition prisma_order : Delegate Order :=
  {| rows := orders; over := set_orders |}.

Definition set_users (f : gmap string User -> gmap string User) (db : Db) : Db :=
  {| users := f (users db); addresses := addresses db; products := products db;
     reviews := reviews db; orders := orders db; orderItems := orderItems db |}.

Definition prisma_user : Delegate User :=
  {| rows := users; over := set_users |}.

Section Client.
Context {Row : Type}.
Variable t : Delegate Row.

(** [findUnique({ where: { id } })]: the row or [null]. *)
Definition findUnique (id : string) : Prisma Db (option Row) :=
  fun db => (inr (rows t db !! id), db).

(** [updateMany({ where, data })]: rewrites every row that matches. *)
Definition updateMany (where_ : string -> Row -> bool) (data : Row -> Row)
  : Prisma Db unit :=
  modify (over t (map_imap (fun id r => Some (if where_ id r then data r else r)))).

(** [create({ data })]: the store assigns the id [newId]; a primary-key
  clash makes the call throw. *)
Definition create (newId : string) (data : Row) : Prisma Db (string * Row) :=
  fun db =>
    match rows t db !! newId with
    | Some _ => (inl "Unique constraint failed on the fields: (`id`)", db)
    | None => (inr (newId, data), over t (insert newId data) db)
    end.

(** [update({ where: { id }, data })]: throws when no row has the id, or
  when the store rejects a value of [data]. *)
Definition update (id : string) (data : Row -> option Row) : Prisma Db (string * Row) :=
  fun db =>
    match rows t db !! id with
    | None => (inl "Record to update not found.", db)
    | Some r =>
        match data r with
        | None => (inl "Invalid value provided.", db)
        | Some r' => (inr (id, r'), over t (insert id r') db)
        end
    end.

(** [delete({ where: { id } })]: throws when no row has the id.  Rows of
    other tables may reference the row; [referential] is what the store does
    about them before it removes the row: it leaves the database with the
    references dealt with, or it refuses ([None]) and the call throws. *)
Definition delete_ (referential : Db -> option Db) (id : string)
  : Prisma Db (string * Row) :=
  fun db =>
    match rows t db !! id with
    | None => (inl "Record to delete does not exist.", db)
    | Some r =>
        match referential db with
        | None => (inl "Foreign key constraint failed.", db)
        | Some db' => (inr (id, r), over t (delete id) db')
        end
    end.
End Client.

(** ** Request bodies

    [express.json()] hands a handler whatever JSON the client sent: a field
    of the body is absent ([undefined], here [None]) or holds a JSON value
    of any type. *)
Inductive JsonValue : Type :=
  | JNull
  | JBool (b : bool)
  | JNumber (q : Q)
  | JString (s : string)
  | JObject.

(** [if (v)]: [undefined], [null], [false], [0] and [""] are falsy, every
    other value (objects and arrays among them) is truthy. *)
Definition js_truthy (v : option JsonValue) : bool :=
  match v with
  | None | Some JNull => false
  | Some (JBool b) => b
  | Some (JNumber q) => negb (Qeq_bool q 0)
  | Some (JString s) => negb (bool_decide (s = ""))
  | Some JObject => true
  end.

(** A text column written from a field of [data]: [undefined] leaves the
    column as it is, [null] clears it, a string sets it; the client refuses
    any other value ([None]). *)
Definition write_text (v : option JsonValue) (old : option string)
  : option (option string) :=
  match v with
  | None => Some old
  | Some JNull => Some None
  | Some (JString s) => Some (Some s)
  | Some _ => None
  end.

(** A boolean column that is not nullable: only a boolean sets it. *)
Definition write_flag (v : option JsonValue) (old : bool) : option bool :=
  match v with
  | None => Some old
  | Some (JBool b) => Some b
  | Some _ => None
  end.

(** ** routes/users.ts: the address handlers *)

Module Users.

(** The body of an address request as it arrives: any field may be absent
    or hold any JSON value. *)
Record RawAddressBody := {
    r_type : option JsonValue;
    r_name : option JsonValue;
    r_street : option JsonValue;
    r_unit : option JsonValue;
    r_building : option JsonValue;
    r_postalCode : option JsonValue;
    r_district : option JsonValue;
    r_isDefault : option JsonValue;
    r_deliveryNotes : option JsonValue
  }.

(** A well-typed body: the text fields that are there are strings and the
    default flag, when it is there, is a boolean ([None] is [undefined]). *)
Record AddressBody := {
  b_type : option string;
  b_name : option string;
  b_street : option string;
  b_unit : option string;
  b_building : option string;
  b_postalCode : option string;
  b_district : option string;
  b_isDefault : option bool;
  b_deliveryNotes : option string
  }.

Definition clear_default (a : Address) : Address :=
  {| userId := userId a; type := type a; name := name a; street := street a;
     unit_ := unit_ a; building := building a; postalCode := postalCode a;
     district := district a; isDefault := false;
     deliveryNotes := deliveryNotes a |}.

(** The [data] object of [prisma.address.create]. *)
Definition created_row (caller : string) (body : AddressBody) : Address :=
  {| userId := caller; type := b_type body; name := b_name body;
     street := b_street body; unit_ := b_unit body;
     building := b_building body; postalCode := b_postalCode body;
     district := b_district body;
     isDefault := default false (b_isDefault body);
     deliveryNotes := b_deliveryNotes body |}.


(** A well-typed body as it arrives. *)
Definition raw_of (body : AddressBody) : RawAddressBody :=
  {| r_type := JString <$> b_type body; r_name := JString <$> b_name body;
     r_street := JString <$> b_street body; r_unit := JString <$> b_unit body;
     r_building := JString <$> b_building body;
     r_postalCode := JString <$> b_postalCode body;
     r_district := JString <$> b_district body;
     r_isDefault := JBool <$> b_isDefault body;
     r_deliveryNotes := JString <$> b_deliveryNotes body |}.

(** [isDefault || false], as a column value: a falsy flag gives [false], a
    truthy one must be the boolean [true]. *)
Definition flag_or_false (v : option JsonValue) : option bool :=
  if js_truthy v then write_flag v false else Some false.

(** The row that the [data] object of [POST /addresses] describes, or
    [None] when a field has a value of the wrong type. *)
Definition create_fields (caller : string) (raw : RawAddressBody) : option Address :=
  ty ← write_text (r_type raw) None;
  nm ← write_text (r_name raw) None;
  st ← write_text (r_street raw) None;
  un ← write_text (r_unit raw) None;
  bu ← write_text (r_building raw) None;
  pc ← write_text (r_postalCode raw) None;
  di ← write_text (r_district raw) None;
  df ← flag_or_false (r_isDefault raw);
  dn ← write_text (r_deliveryNotes raw) None;
  Some {| userId := caller; type := ty; name := nm; street := st; unit_ := un;
          building := bu; postalCode := pc; district := di; isDefault := df;
          deliveryNotes := dn |}.

(** The row that the [data] object of [PUT /addresses/:id] makes of [a],
    or [None] when a field has a value of the wrong type. *)
Definition update_fields (raw : RawAddressBody) (a : Address) : option Address :=
  ty ← write_text (r_type raw) (type a);
  nm ← write_text (r_name raw) (name a);
  st ← write_text (r_street raw) (street a);
  un ← write_text (r_unit raw) (unit_ a);
  bu ← write_text (r_building raw) (building a);
  pc ← write_text (r_postalCode raw) (postalCode a);
  di ← write_text (r_district raw) (district a);
  df ← write_flag (r_isDefault raw) (isDefault a);
  dn ← write_text (r_deliveryNotes raw) (deliveryNotes a);
  Some {| userId := userId a; type := ty; name := nm; street := st; unit_ := un;
          building := bu; postalCode := pc; district := di; isDefault := df;
          deliveryNotes := dn |}.

(** [router.get('/addresses', ...)]: the caller's addresses, the default
  one first. *)
Definition get_addresses (caller : string) : Db -> Reply (list (string * Address)) * Db :=
  handle (
    let* db := get in
    let own := filter (fun ia => userId ia.2 = caller) (map_to_list (addresses db)) in
    ret (Json 200 (filter (fun ia => isDefault ia.2 = true) own
                   ++ filter (fun ia => isDefault ia.2 = false) own)%list)).

Section Store.
(** The rows that the store takes.  The schema, with its enums and its
    required columns, is not among the sources: which well-typed rows the
    store accepts is a parameter. *)
Variable accepts : Address -> bool.

Definition checked (row : option Address) : option Address :=
  r ← row; if accepts r then Some r else None.

(** The row that [prisma.address.create] writes, or [None] when the call
    throws. *)
Definition create_data (caller : string) (raw : RawAddressBody) : option Address :=
  checked (create_fields caller raw).

(** The row that [prisma.address.update] writes over [a], or [None] when
    the call throws. *)
Definition update_data (raw : RawAddressBody) (a : Address) : option Address :=
  checked (update_fields raw a).

(** [router.post('/addresses', ...)].  [errors] is what
  [validationResult(req)] holds; [newId] is the id the store gives the
  new row. *)
Definition post_addresses (caller : string) (errors : list string)
    (body : RawAddressBody) (newId : string) : Db -> Reply (string * Address) * Db :=
  handle (
    if negb (bool_decide (errors = [])) then ret (Invalid errors) else
    let* _ :=
      if js_truthy (r_isDefault body) then
        updateMany prisma_address
          (fun _ a => bool_decide (userId a = caller) && bool_decide (isDefault a = true))
          clear_default
      else ret tt in
    let* address :=
      match create_data caller body with
      | Some row => create prisma_address newId row
      | None => throw "Invalid value provided."
      end in
    ret (Json 201 address)).

(** [router.put('/addresses/:id', ...)].  No validator runs before this
    handler and no transaction wraps its two writes: when the client refuses
    the data of the update, the flags cleared by [updateMany] stay cleared. *)
Definition put_address (caller : string) (id : string) (body : RawAddressBody)
    : Db -> Reply (string * Address) * Db :=
  handle (
    let* existing := findUnique prisma_address id in
    match existing with
    | None => ret (Failure 404 "Address not found")
    | Some e =>
        if negb (bool_decide (userId e = caller)) then
          ret (Failure 404 "Address not found")
        else
          let* _ :=
            if js_truthy (r_isDefault body) then
              updateMany prisma_address
                (fun i a => bool_decide (userId a = caller)
                            && bool_decide (isDefault a = true)
                            && negb (bool_decide (i = id)))
                clear_default
            else ret tt in
          let* address := update prisma_address id (update_data body) in
          ret (Json 200 address)
    end).

End Store.

(** The orders that reference an address. *)
Definition orders_at (id : string) (db : Db) : list (string * Order) :=
  filter (fun ko : string * Order => orderAddress ko.2 = id) (map_to_list (orders db)).

Section Referential.
(** What the store does, by the schema, to the order table when an address
    that orders reference is deleted: it gives the order table with the
    references dealt with (a cascade, say), or it refuses ([None]).  The
    schema is not among the sources, so this is a parameter. *)
Variable on_delete : string -> gmap string Order -> option (gmap string Order).

Definition address_referential (id : string) (db : Db) : option Db :=
  match orders_at id db with
  | [] => Some db
  | _ :: _ => (fun os => set_orders (fun _ => os) db) <$> on_delete id (orders db)
  end.

(** [router.delete('/addresses/:id', ...)]. *)
Definition delete_address (caller : string) (id : string)
  : Db -> Reply string * Db :=
  handle (
    let* existing := findUnique prisma_address id in
    match existing with
    | None => ret (Failure 404 "Address not found")
    | Some e =>
        if negb (bool_decide (userId e = caller)) then
          ret (Failure 404 "Address not found")
        else
          let* _ := delete_ prisma_address (address_referential id) id in
          ret (Json 200 "Address deleted")
    end).
End Referential.

(** Exactly one address of [u] is the default one, and it is [id]. *)
Definition sole_default (u id : string) (t : gmap string Address) : Prop :=
  (exists a, t !! id = Some a /\ userId a = u /\ isDefault a = true) /\
  (forall i a, t !! i = Some a -> userId a = u -> isDefault a = true -> i = id).

(** The table after the [updateMany] of the two handlers: the caller's
  default rows are cleared, except the row [keep] when there is one. *)
Definition unset_defaults (caller : string) (keep : option string)
    (t : gmap string Address) : gmap string Address :=
  map_imap (fun i a =>
    Some (if bool_decide (userId a = caller) && bool_decide (isDefault a = true)
             && negb (bool_decide (Some i = keep))
          then clear_default a else a)) t.


(** No user has two default addresses. *)
Definition at_most_one_default (t : gmap string Address) : Prop :=
  forall i j a b,
    t !! i = Some a -> t !! j = Some b -> userId a = userId b ->
    isDefault a = true -> isDefault b = true -> i = j.

(** The user as [select: { id, email, name, phone, role, tier }] shows it. *)
Record Profile := {
  pr_id : string;
  pr_email : string;
  pr_name : option string;
  pr_phone : option string;
  pr_role : string;
  pr_tier : string
  }.

Definition profile_of (iu : string * User) : Profile :=
  {| pr_id := iu.1; pr_email := email iu.2; pr_name := userName iu.2;
     pr_phone := phone iu.2; pr_role := role iu.2; pr_tier := tier iu.2 |}.

(** [data: { name, phone }] applied to the row. *)
Definition with_contact (b_name b_phone : option string) (u : User) : User :=
  {| email := email u;
     userName := assign (Some <$> b_name) (userName u);
     phone := assign (Some <$> b_phone) (phone u);
     role := role u; tier := tier u |}.

(** [router.put('/profile', ...)] *)
Definition put_profile (caller : string) (b_name b_phone : option string)
  : Db -> Reply Profile * Db :=
  handle (
    let* user :=
      update prisma_user caller (fun u => Some (with_contact b_name b_phone u)) in
    ret (Json 200 (profile_of user))).

End Users.

(** ** Strings: the JavaScript string methods the handlers call

    The functions below are the JavaScript ones on text of 7-bit characters
    ([is_plain], further down).  Outside that range they are not:
    JavaScript lower-cases letters above 127 too (and can make the string
    longer), and [\s] also matches the no-break space and other Unicode
    spaces; here a character above 127 is left alone by [toLowerCase] and is
    no white space. *)

Definition lower_char (c : ascii) : ascii :=
  let n := nat_of_ascii c in
  if ((65 <=? n) && (n <=? 90))%nat then ascii_of_nat (n + 32) else c.

(** [s.toLowerCase()] *)
Fixpoint toLowerCase (s : string) : string :=
  match s with
  | EmptyString => EmptyString
  | String c r => String (lower_char c) (toLowerCase r)
  end.

(** The class [\s] of a regular expression: tab, line feed, vertical tab,
    form feed, carriage return and space. *)
Definition is_space (c : ascii) : bool :=
  let n := nat_of_ascii c in
  ((9 <=? n) && (n <=? 13) || (n =? 32))%nat.

(** The capital letters [A] to [Z]. *)
Definition is_upper (c : ascii) : bool :=
  let n := nat_of_ascii c in
  ((65 <=? n) && (n <=? 90))%nat.

(** What is left of [s] after the longest match of [\s*] at its start. *)
Fixpoint skip_spaces (s : string) : string :=
  match s with
  | EmptyString => EmptyString
  | String c r => if is_space c then skip_spaces r else s
  end.

(** [s.replace(/\s+/g, '-')]: scanning from the left, the longest match of
    [\s+] at the current position is replaced by a hyphen and the scan goes
    on after it; a character that starts no match is copied. *)
Equations? replace_spaces (s : string) : string by wf (String.length s) lt :=
  replace_spaces EmptyString := EmptyString;
  replace_spaces (String c r) with is_space c => {
    | true := String "-" (replace_spaces (skip_spaces r));
    | false := String c (replace_spaces r) }.
Proof.
  all: try (simpl; lia).
  clear. induction r as [|d r IH]; simpl; [lia|].
  destruct (is_space d); simpl in *; lia.
Qed.

(** The maximal runs of a string: it is cut where white space starts or
    ends, and each piece is tagged [true] when it is white space.  This is
    the reading of "every maximal run of whitespace" that [replace_spaces] is
    compared with. *)
Fixpoint runs (s : string) : list (bool * string) :=
  match s with
  | EmptyString => []
  | String c r =>
      match runs r with
      | (b, g) :: rest =>
          if eqb b (is_space c) then (b, String c g) :: rest
          else (is_space c, String c EmptyString) :: (b, g) :: rest
      | [] => [(is_space c, String c EmptyString)]
      end
  end.

(** Each white-space run becomes one hyphen, every other run is kept. *)
Fixpoint hyphenate (rs : list (bool * string)) : string :=
  match rs with
  | [] => EmptyString
  | (true, _) :: rest => String "-" (hyphenate rest)
  | (false, g) :: rest => String.append g (hyphenate rest)
  end.

Fixpoint all_chars (P : ascii -> bool) (s : string) : bool :=
  match s with
  | EmptyString => true
  | String c r => P c && all_chars P r
  end.

Fixpoint alternating (rs : list (bool * string)) : Prop :=
  match rs with
  | (b, _) :: (((b', _) :: _) as rest) => b <> b' /\ alternating rest
  | _ => True
  end.

(** [rs] cuts [s] into its maximal runs: the pieces put together give [s],
    no piece is empty, a piece tagged [true] is all white space and a piece
    tagged [false] has none, and neighbours carry different tags. *)
Definition maximal_runs (s : string) (rs : list (bool * string)) : Prop :=
  foldr (fun r acc => String.append r.2 acc) EmptyString rs = s /\
  Forall (fun r => r.2 <> EmptyString /\
                   all_chars (fun c => eqb (is_space c) r.1) r.2 = true) rs /\
  alternating rs.

(** [needle] occurs in [hay] as a substring. *)
Fixpoint infix_of (needle hay : string) : bool :=
  String.prefix needle hay ||
  match hay with
  | EmptyString => false
  | String _ r => infix_of needle r
  end.

(** [needle] occurs in [hay], compared without regard to case. *)
Definition occurs_insensitive (needle hay : string) : bool :=
  infix_of (toLowerCase needle) (toLowerCase hay).

(** The [LIKE] of the store: in a pattern [%] stands for any run of
    characters, [_] for any one character, and a backslash takes the
    character after it literally. *)
Fixpoint like (pattern s : string) {struct pattern} : bool :=
  match pattern with
  | EmptyString => match s with EmptyString => true | _ => false end
  | String "%" p =>
      (fix any (s : string) : bool :=
         like p s || match s with
                     | EmptyString => false
                     | String _ r => any r
                     end) s
  | String "_" p =>
      match s with
      | EmptyString => false
      | String _ r => like p r
      end
  | String "\" (String c p) =>
      match s with
      | EmptyString => false
      | String d r => Ascii.eqb c d && like p r
      end
  | String c p =>
      match s with
      | EmptyString => false
      | String d r => Ascii.eqb c d && like p r
      end
  end.

(** [{ contains: needle, mode: 'insensitive' }]: the client sends
    [hay ILIKE '%needle%'] and does not escape the needle, so a [%], a [_]
    or a backslash in it acts as in any pattern. *)
Definition contains_insensitive (needle hay : string) : bool :=
  like (toLowerCase (String "%" (String.append needle "%"))) (toLowerCase hay).

(** The characters of 7 bits, and the strings made of them. *)
Definition is_7bit (c : ascii) : bool := (nat_of_ascii c <? 128)%nat.

(** The characters that mean something else than themselves in a [LIKE]
    pattern. *)
Definition is_wildcard (c : ascii) : bool :=
  Ascii.eqb c "%" || Ascii.eqb c "_" || Ascii.eqb c "\".

(** Text of 7-bit characters only; and a search term that is such text and
    holds no character that a [LIKE] pattern reads as something else. *)
Definition is_plain (s : string) : bool := all_chars is_7bit s.

Definition is_literal (s : string) : bool :=
  all_chars (fun c => is_7bit c && negb (is_wildcard c)) s.

(** ** Numbers *)

(** A JavaScript number that comes out of a division: a finite value, or
    [Infinity], [-Infinity], [NaN]. *)
Inductive JsNumber : Type :=
  | Finite (q : Q)
  | PosInfinity
  | NegInfinity
  | NaN.

(** [a / b] on finite numbers. *)
Definition js_div (a b : Q) : JsNumber :=
  if Qeq_bool b 0 then
    (if Qeq_bool a 0 then NaN
     else if Qle_bool 0 a then PosInfinity else NegInfinity)
  else Finite (a / b)%Q.

(** [x || 0]: [NaN] and zero are falsy. *)
Definition or_zero (x : JsNumber) : JsNumber :=
  match x with
  | NaN => Finite 0
  | Finite q => if Qeq_bool q 0 then Finite 0 else Finite q
  | _ => x
  end.

(** [Math.ceil(x)]; a value that is not finite has no JSON form and is
    sent as [null]. *)
Definition js_ceil (x : JsNumber) : option Z :=
  match x with
  | Finite q => Some (Qceiling q)
  | _ => None
  end.

(** ** Sorting and windows of [findMany] *)

Section Windows.
Context {Row : Type}.

Fixpoint insert_sorted (le : Row -> Row -> bool) (x : Row) (l : list Row) : list Row :=
  match l with
  | [] => [x]
  | y :: r => if le x y then x :: l else y :: insert_sorted le x r
  end.

Definition sort_by (le : Row -> Row -> bool) (l : list Row) : list Row :=
  foldr (insert_sorted le) [] l.

(** No [orderBy]: the rows come in the order of the store. *)
Definition unordered : Row -> Row -> bool := fun _ _ => true.

(** ['asc'] keeps the comparison, ['desc'] turns it round; any other
  direction is refused by the client. *)
Definition directed (order : string) (le : Row -> Row -> bool)
  : option (Row -> Row -> bool) :=
  if bool_decide (order = "asc") then Some le
  else if bool_decide (order = "desc") then Some (fun a b => le b a)
  else None.

(** The window [skip]/[take] over rows already filtered and sorted.  A
  negative [skip] is refused; a negative [take] counts from the end; no
  [take] means all the rows after [skip]. *)
Definition window (skip : Z) (take : option Z) (l : list Row) : option (list Row) :=
  if skip <? 0 then None
  else
    match take with
    | None => Some (skipn (Z.to_nat skip) l)
    | Some n =>
        if n <? 0 then
          Some (reverse (firstn (Z.to_nat (- n)) (skipn (Z.to_nat skip) (reverse l))))
        else Some (firstn (Z.to_nat n) (skipn (Z.to_nat skip) l))
    end.
End Windows.

Section FindMany.
Context {Row : Type}.
Variable t : Delegate Row.

(** The rows of the table that satisfy [where]. *)
Definition matching (where_ : string -> Row -> bool) (db : Db) : list (string * Row) :=
  filter (fun ir : string * Row => where_ ir.1 ir.2 = true) (map_to_list (rows t db)).

(** [findMany({ where, skip, take, orderBy })]; [le] is [None] when the
  [orderBy] argument names no column or no direction. *)
Definition findMany (where_ : string -> Row -> bool)
    (le : option (string * Row -> string * Row -> bool))
    (skip : Z) (take : option Z) : Prisma Db (list (string * Row)) :=
  fun db =>
    match le with
    | None => (inl "Invalid orderBy argument.", db)
    | Some le =>
        match window skip take (sort_by le (matching where_ db)) with
        | None => (inl "Invalid value for skip argument.", db)
        | Some page => (inr page, db)
        end
    end.

(** [count({ where })] *)
Definition count (where_ : string -> Row -> bool) : Prisma Db Z :=
  fun db => (inr (Z.of_nat (length (matching where_ db))), db).
End FindMany.

(** The [pagination] object of a listing reply. *)
Record Pagination := {
    page : Z;
    limit : Z;
    pg_total : Z;
    pages : option Z
  }.

Definition pagination_of (page_ limit_ total_ : Z) : Pagination :=
  {| page := page_; limit := limit_; pg_total := total_;
     pages := js_ceil (js_div (inject_Z total_) (inject_Z limit_)) |}.

(** [n] is the ceiling of [total / limit]: the least number of pages of
    [limit] rows that hold [total] rows. *)
Definition is_ceiling (n total limit : Z) : Prop :=
  (n - 1) * limit < total <= n * limit.

(** [found] and [pg] are page [page_] of [all], [limit_] rows to the page:
    the window skips [(page_ - 1) * limit_] rows and takes at most [limit_],
    and [pg] reports the page, the limit, the number of rows and the number
    of pages. *)
Definition page_of {A} (all : list A) (page_ limit_ : Z)
    (found : list A) (pg : Pagination) : Prop :=
  found = firstn (Z.to_nat limit_) (skipn (Z.to_nat ((page_ - 1) * limit_)) all) /\
  Z.of_nat (length found) <= limit_ /\
  page pg = page_ /\ limit pg = limit_ /\
  pg_total pg = Z.of_nat (length all) /\
  exists n, pages pg = Some n /\ is_ceiling n (pg_total pg) limit_.

(** A query-string parameter is truthy when it is present and not empty. *)
Definition present (s : option string) : option string :=
  match s with
  | Some v => if bool_decide (v = "") then None else Some v
  | None => None
  end.

(** ** routes/products.ts: the public catalogue *)

Module Products.

(** The query string of [GET /].  [q_minPrice], [q_maxPrice], [q_page]
  and [q_limit] hold the number that [Number(...)] makes of a parameter
  that is present and not empty. *)
Record ProductQuery := {
  q_category : option string;
  q_brand : option string;
  q_minPrice : option Q;
  q_maxPrice : option Q;
  q_search : option string;
  q_page : option Z;
  q_limit : option Z;
  q_sortBy : option string;
  q_order : option string
  }.

(** [{ contains: s, mode: 'insensitive' }] on one column. *)
Inductive Contains : Type :=
  | NameContains (s : string)
  | BrandContains (s : string)
  | DescriptionContains (s : string).

Record PriceRange := { gte : option Q; lte : option Q }.

(** The [where] object the handler builds. *)
Record ProductWhere := {
  w_isActive : option bool;
  w_isFeatured : option bool;
  w_category : option string;
  w_brand : option string;
  w_price : option PriceRange;
  w_OR : option (list Contains)
  }.

Definition holds (c : Contains) (p : Product) : bool :=
  match c with
  | NameContains s => contains_insensitive s (productName p)
  | BrandContains s => contains_insensitive s (brand p)
  | DescriptionContains s => contains_insensitive s (description p)
  end.

Definition in_range (r : PriceRange) (x : Q) : bool :=
  match gte r with Some lo => Qle_bool lo x | None => true end &&
  match lte r with Some hi => Qle_bool x hi | None => true end.

(** A row satisfies a [where] object when it satisfies every field set. *)
Definition matches (w : ProductWhere) (p : Product) : bool :=
  match w_isActive w with Some b => eqb (isActive p) b | None => true end &&
  match w_isFeatured w with Some b => eqb (isFeatured p) b | None => true end &&
  match w_category w with Some c => bool_decide (category p = c) | None => true end &&
  match w_brand w with Some b => bool_decide (brand p = b) | None => true end &&
  match w_price w with Some r => in_range r (price p) | None => true end &&
  match w_OR w with Some cs => existsb (fun c => holds c p) cs | None => true end.

(** [where] as [GET /] builds it, statement by statement. *)
Definition list_where (q : ProductQuery) : ProductWhere :=
  {| w_isActive := Some true;
     w_isFeatured := None;
     w_category :=
       match present (q_category q) with
       | Some c => if bool_decide (c = "All") then None else Some c
       | None => None
       end;
     w_brand := present (q_brand q);
     w_price :=
       match q_minPrice q, q_maxPrice q with
       | None, None => None
       | lo, hi => Some {| gte := lo; lte := hi |}
       end;
     w_OR :=
       match present (q_search q) with
       | Some s => Some [NameContains s; BrandContains s; DescriptionContains s]
       | None => None
       end |}.

(** The query with its [category] parameter replaced. *)
Definition with_category (c : option string) (q : ProductQuery) : ProductQuery :=
  {| q_category := c; q_brand := q_brand q; q_minPrice := q_minPrice q;
     q_maxPrice := q_maxPrice q; q_search := q_search q; q_page := q_page q;
     q_limit := q_limit q; q_sortBy := q_sortBy q; q_order := q_order q |}.

(** The columns a listing can be sorted on. *)
Definition column (field : string) : option (string * Product -> string * Product -> bool) :=
  let on {K} (le : K -> K -> bool) (f : string * Product -> K) :=
    Some (fun a b => le (f a) (f b)) in
  if bool_decide (field = "id") then on String.leb (fun r => r.1)
  else if bool_decide (field = "name") then on String.leb (fun r => productName r.2)
  else if bool_decide (field = "slug") then on String.leb (fun r => slug r.2)
  else if bool_decide (field = "description") then on String.leb (fun r => description r.2)
  else if bool_decide (field = "price") then on Qle_bool (fun r => price r.2)
  else if bool_decide (field = "stock") then on Z.leb (fun r => stock r.2)
  else if bool_decide (field = "category") then on String.leb (fun r => category r.2)
  else if bool_decide (field = "brand") then on String.leb (fun r => brand r.2)
  else if bool_decide (field = "isActive") then on implb (fun r => isActive r.2)
  else if bool_decide (field = "isFeatured") then on implb (fun r => isFeatured r.2)
  else if bool_decide (field = "viewCount") then on Z.leb (fun r => viewCount r.2)
  else if bool_decide (field = "salesCount") then on Z.leb (fun r => salesCount r.2)
  else if bool_decide (field = "lowStockAlert") then on Z.leb (fun r => lowStockAlert r.2)
  else if bool_decide (field = "createdAt") then on Z.leb (fun r => productCreatedAt r.2)
  else None.

(** [orderBy: { [sortBy]: order }] *)
Definition orderBy (sortBy order : string)
  : option (string * Product -> string * Product -> bool) :=
  le ← column sortBy; directed order le.

Record ProductList := {
  pl_products : list (string * Product);
  pl_pagination : Pagination
  }.

(** [router.get('/', ...)] *)
Definition get_products (q : ProductQuery) : Db -> Reply ProductList * Db :=
  handle (
    let page := default 1 (q_page q) in
    let limit := default 20 (q_limit q) in
    let sortBy := default "createdAt" (q_sortBy q) in
    let order := default "desc" (q_order q) in
    let skip := (page - 1) * limit in
    let where_ := list_where q in
    let* found :=
      findMany prisma_product (fun _ p => matches where_ p)
        (orderBy sortBy order) skip (Some limit) in
    let* total := count prisma_product (fun _ p => matches where_ p) in
    ret (Json 200 {| pl_products := found;
                     pl_pagination := pagination_of page limit total |})).

(** A review as [include: { user: { select: { name, email } } }] shows it. *)
Record ReviewView := {
  rv_id : string;
  rv_review : Review;
  rv_user : option (option string * string)
  }.

(** A product with [include: { reviews: { where: { isPublished: true } } }]. *)
Record ProductView := {
  pv_id : string;
  pv_product : Product;
  pv_reviews : list ReviewView
  }.

Definition published_reviews (id : string) (db : Db) : list ReviewView :=
  (fun ir : string * Review =>
     {| rv_id := ir.1; rv_review := ir.2;
        rv_user := (fun u => (userName u, email u)) <$> users db !! reviewUser ir.2 |})
  <$> filter (fun ir : string * Review =>
                reviewProduct ir.2 = id /\ isPublished ir.2 = true)
        (map_to_list (reviews db)).

Definition findUnique_with_reviews (id : string) : Prisma Db (option ProductView) :=
  fun db =>
    (inr ((fun p => {| pv_id := id; pv_product := p;
                       pv_reviews := published_reviews id db |})
          <$> products db !! id), db).

(** [data: { viewCount: { increment: 1 } }] *)
Definition increment_viewCount (n : Z) (p : Product) : Product :=
  {| productName := productName p; slug := slug p; description := description p;
     price := price p; stock := stock p; category := category p; brand := brand p;
     isActive := isActive p; isFeatured := isFeatured p;
     viewCount := viewCount p + n; salesCount := salesCount p;
     lowStockAlert := lowStockAlert p; productCreatedAt := productCreatedAt p |}.

(** [router.get('/:id', ...)] *)
Definition get_product (id : string) : Db -> Reply ProductView * Db :=
  handle (
    let* product := findUnique_with_reviews id in
    match product with
    | None => ret (Failure 404 "Product not found")
    | Some p =>
        let* _ := update prisma_product id (fun r => Some (increment_viewCount 1 r)) in
        ret (Json 200 p)
    end).

(** [router.get('/featured/list', ...)] *)
Definition get_featured : Db -> Reply (list (string * Product)) * Db :=
  handle (
    let where_ :=
      {| w_isActive := Some true; w_isFeatured := Some true; w_category := None;
         w_brand := None; w_price := None; w_OR := None |} in
    let* found :=
      findMany prisma_product (fun _ p => matches where_ p)
        (orderBy "salesCount" "desc") 0 (Some 12) in
    ret (Json 200 found)).

(** The query with its [search] parameter replaced. *)
Definition with_search (s : option string) (q : ProductQuery) : ProductQuery :=
  {| q_category := q_category q; q_brand := q_brand q; q_minPrice := q_minPrice q;
     q_maxPrice := q_maxPrice q; q_search := s; q_page := q_page q;
     q_limit := q_limit q; q_sortBy := q_sortBy q; q_order := q_order q |}.

(** What the parameters of a query ask of a product, said without the
  [where] object: the product is active, it has the category and the
  brand asked for, its price is within the bounds given, and the search
  term occurs in its name, brand or description. *)
Definition wanted (q : ProductQuery) (p : Product) : Prop :=
  isActive p = true /\
  (forall c, q_category q = Some c -> c <> "" -> c <> "All" -> category p = c) /\
  (forall b, q_brand q = Some b -> b <> "" -> brand p = b) /\
  (forall lo, q_minPrice q = Some lo -> (lo <= price p)%Q) /\
  (forall hi, q_maxPrice q = Some hi -> (price p <= hi)%Q) /\
  (forall s, q_search q = Some s -> s <> "" ->
     occurs_insensitive s (productName p) = true \/
     occurs_insensitive s (brand p) = true \/
     occurs_insensitive s (description p) = true).

(** The columns that a search looks at hold plain text. *)
Definition plain_product (p : Product) : bool :=
  is_plain (productName p) && is_plain (brand p) && is_plain (description p).

End Products.

(** ** routes/admin.ts: the admin dashboard *)

Module Admin.

(** [name.toLowerCase().replace(/\s+/g, '-')] *)
Definition slug_of (name : string) : string :=
  replace_spaces (toLowerCase name).

Definition with_slug (s : string) (p : Product) : Product :=
  {| productName := productName p; slug := s; description := description p;
     price := price p; stock := stock p; category := category p; brand := brand p;
     isActive := isActive p; isFeatured := isFeatured p;
     viewCount := viewCount p; salesCount := salesCount p;
     lowStockAlert := lowStockAlert p; productCreatedAt := productCreatedAt p |}.

(** [router.post('/products', ...)].  The body gives every column of the
  new row (the column defaults of the store are not modelled); a [slug]
  in the body is overwritten by the derived one. *)
Definition post_products (errors : list string) (body : Product) (newId : string)
  : Db -> Reply (string * Product) * Db :=
  handle (
    if negb (bool_decide (errors = [])) then ret (Invalid errors) else
    let* product :=
      create prisma_product newId (with_slug (slug_of (productName body)) body) in
    ret (Json 201 product)).

(** An order line with [include: { product: true }] when asked for. *)
Record ItemView := {
  iv_id : string;
  iv_item : OrderItem;
  iv_product : option Product
  }.

(** The purchaser, whole or as [select: { name, email, phone }]. *)
Inductive UserView : Type :=
  | WholeUser (u : User)
  | Contact (name : option string) (email : string) (phone : option string).

(** An order with the relations a handler includes. *)
Record OrderView := {
  ov_id : string;
  ov_order : Order;
  ov_user : option UserView;
  ov_items : list ItemView;
  ov_address : option Address
  }.

Definition items_of (with_product : bool) (id : string) (db : Db) : list ItemView :=
  (fun ii : string * OrderItem =>
     {| iv_id := ii.1; iv_item := ii.2;
        iv_product := if with_product then products db !! itemProduct ii.2 else None |})
  <$> filter (fun ii : string * OrderItem => itemOrder ii.2 = id)
        (map_to_list (orderItems db)).

Definition contact_of (u : User) : UserView :=
  Contact (userName u) (email u) (phone u).

(** The [where] object of the order queries. *)
Record OrderWhere := {
  w_status : option string;
  w_status_in : option (list string);
  w_createdAt : option (Z * Z)
  }.

Definition matches (w : OrderWhere) (o : Order) : bool :=
  match w_status w with Some s => bool_decide (status o = s) | None => true end &&
  match w_status_in w with Some l => bool_decide (status o ∈ l) | None => true end &&
  match w_createdAt w with
  | Some (lo, hi) => (lo <=? orderCreatedAt o) && (orderCreatedAt o <=? hi)
  | None => true
  end.

Record OrderList := {
  ol_orders : list OrderView;
  ol_pagination : Pagination
  }.

Record SalesReport := {
  totalRevenue : Q;
  totalOrders : Z;
  averageOrderValue : JsNumber;
  sr_orders : list OrderView
  }.

Definition with_status (s : option string) (delivered : option Z) (o : Order) : Order :=
  {| orderUser := orderUser o; orderAddress := orderAddress o;
     status := assign s (status o); total := total o;
     orderCreatedAt := orderCreatedAt o;
     deliveredAt := assign (Some <$> delivered) (deliveredAt o) |}.

(** The columns of an order that a status update does not write. *)
Definition same_but_status (o o' : Order) : Prop :=
  orderUser o' = orderUser o /\ orderAddress o' = orderAddress o /\
  total o' = total o /\ orderCreatedAt o' = orderCreatedAt o.

(** The sum of the [total] fields of a list of orders. *)
Fixpoint sum_of_totals (l : list OrderView) : Q :=
  match l with
  | [] => 0%Q
  | o :: r => (total (ov_order o) + sum_of_totals r)%Q
  end.

Section Enum.
(** The members of the [OrderStatus] enum of the schema; the sources name
['PENDING'], ['CONFIRMED'] and ['DELIVERED']. *)
Variable valid_status : string -> bool.

(** [router.get('/orders', ...)] *)
Definition get_orders (q_status : option string) (q_page q_limit : option Z)
  : Db -> Reply OrderList * Db :=
  handle (
  let page := default 1 q_page in
  let limit := default 20 q_limit in
  let where_ :=
    {| w_status := present q_status; w_status_in := None; w_createdAt := None |} in
  let skip := (page - 1) * limit in
  let* _ :=
    match present q_status with
    | Some s => if valid_status s then ret tt
                else throw "Invalid value for argument `status`."
    | None => ret tt
    end in
  let* found :=
    findMany prisma_order (fun _ o => matches where_ o)
      (Some (fun a b => orderCreatedAt b.2 <=? orderCreatedAt a.2))
      skip (Some limit) in
  let* db := get in
  let* total := count prisma_order (fun _ o => matches where_ o) in
  ret (Json 200
         {| ol_orders :=
              (fun io : string * Order =>
                 {| ov_id := io.1; ov_order := io.2;
                    ov_user := contact_of <$> users db !! orderUser io.2;
                    ov_items := items_of true io.1 db;
                    ov_address := addresses db !! orderAddress io.2 |}) <$> found;
            ol_pagination := pagination_of page limit total |})).

(** [router.put('/orders/:id/status', ...)]; [now] is [new Date()]. *)
Definition put_order_status (id : string) (b_status : option string) (now : Z)
  : Db -> Reply OrderView * Db :=
  handle (
  let* order :=
    update prisma_order id
      (fun o =>
         match b_status with
         | Some s => if valid_status s then
                       Some (with_status b_status
                               (if bool_decide (s = "DELIVERED") then Some now else None) o)
                     else None
         | None => Some (with_status None None o)
         end) in
  let* db := get in
  ret (Json 200
         {| ov_id := order.1; ov_order := order.2;
            ov_user := WholeUser <$> users db !! orderUser order.2;
            ov_items := items_of false order.1 db;
            ov_address := None |})).

(** [router.get('/reports/sales', ...)]; the dates are the instants that
[new Date(startDate)] and [new Date(endDate)] denote. *)
Definition get_sales_report (startDate endDate : option Z)
  : Db -> Reply SalesReport * Db :=
  handle (
  let where_ :=
    {| w_status := None;
       w_status_in := Some ["DELIVERED"; "CONFIRMED"];
       w_createdAt :=
         match startDate, endDate with
         | Some lo, Some hi => Some (lo, hi)
         | _, _ => None
         end |} in
  let* found :=
    findMany prisma_order (fun _ o => matches where_ o)
      (Some unordered) 0 None in
  let* db := get in
  let orders_ :=
    (fun io : string * Order =>
       {| ov_id := io.1; ov_order := io.2; ov_user := None;
          ov_items := items_of true io.1 db; ov_address := None |}) <$> found in
  let totalRevenue_ :=
    fold_left (fun sum order => (sum + total (ov_order order))%Q) orders_ 0%Q in
  let totalOrders_ := Z.of_nat (length orders_) in
  let averageOrderValue_ := or_zero (js_div totalRevenue_ (inject_Z totalOrders_)) in
  ret (Json 200 {| totalRevenue := totalRevenue_;
                   totalOrders := totalOrders_;
                   averageOrderValue := averageOrderValue_;
                   sr_orders := orders_ |})).
End Enum.

(** The [where] object of the sales report, and an order as the report
    includes it, under names of their own. *)
Definition sales_where (startDate endDate : option Z) : OrderWhere :=
  {| w_status := None;
     w_status_in := Some ["DELIVERED"; "CONFIRMED"];
     w_createdAt :=
       match startDate, endDate with
       | Some lo, Some hi => Some (lo, hi)
       | _, _ => None
       end |}.

Definition sales_view (db : Db) (io : string * Order) : OrderView :=
  {| ov_id := io.1; ov_order := io.2; ov_user := None;
     ov_items := items_of true io.1 db; ov_address := None |}.

(** The body of [PUT /products/:id]: any of the columns ([None] is
  [undefined]). *)
Record ProductBody := {
  pb_name : option string;
  pb_slug : option string;
  pb_description : option string;
  pb_price : option Q;
  pb_stock : option Z;
  pb_category : option string;
  pb_brand : option string;
  pb_isActive : option bool;
  pb_isFeatured : option bool;
  pb_viewCount : option Z;
  pb_salesCount : option Z;
  pb_lowStockAlert : option Z;
  pb_createdAt : option Z
  }.

(** [data: req.body] applied to the row. *)
Definition patched (b : ProductBody) (p : Product) : Product :=
  {| productName := assign (pb_name b) (productName p);
     slug := assign (pb_slug b) (slug p);
     description := assign (pb_description b) (description p);
     price := assign (pb_price b) (price p);
     stock := assign (pb_stock b) (stock p);
     category := assign (pb_category b) (category p);
     brand := assign (pb_brand b) (brand p);
     isActive := assign (pb_isActive b) (isActive p);
     isFeatured := assign (pb_isFeatured b) (isFeatured p);
     viewCount := assign (pb_viewCount b) (viewCount p);
     salesCount := assign (pb_salesCount b) (salesCount p);
     lowStockAlert := assign (pb_lowStockAlert b) (lowStockAlert p);
     productCreatedAt := assign (pb_createdAt b) (productCreatedAt p) |}.

(** [router.put('/products/:id', ...)] *)
Definition put_product (id : string) (body : ProductBody)
  : Db -> Reply (string * Product) * Db :=
  handle (
    let* product := update prisma_product id (fun p => Some (patched body p)) in
    ret (Json 200 product)).

(** [router.delete('/products/:id', ...)]: [data: { isActive: false }]. *)
Definition delete_product (id : string) : Db -> Reply string * Db :=
  handle (
    let* _ :=
      update prisma_product id
        (fun p => Some (patched
           {| pb_name := None; pb_slug := None; pb_description := None;
              pb_price := None; pb_stock := None; pb_category := None;
              pb_brand := None; pb_isActive := Some false; pb_isFeatured := None;
              pb_viewCount := None; pb_salesCount := None;
              pb_lowStockAlert := None; pb_createdAt := None |} p)) in
    ret (Json 200 "Product deactivated")).

(** [router.put('/products/:id/stock', ...)]: [data: { stock }]. *)
Definition put_product_stock (id : string) (b_stock : option Z)
  : Db -> Reply (string * Product) * Db :=
  handle (
    let* product :=
      update prisma_product id
        (fun p => Some (patched
           {| pb_name := None; pb_slug := None; pb_description := None;
              pb_price := None; pb_stock := b_stock; pb_category := None;
              pb_brand := None; pb_isActive := None; pb_isFeatured := None;
              pb_viewCount := None; pb_salesCount := None;
              pb_lowStockAlert := None; pb_createdAt := None |} p)) in
    ret (Json 200 product)).

(** The user as [select: { id, email, name, tier }] shows it. *)
Record TierView := {
  tv_id : string;
  tv_email : string;
  tv_name : option string;
  tv_tier : string
  }.

Section Tiers.
(** The members of the tier enum of the schema. *)
Variable valid_tier : string -> bool.

(** [router.put('/users/:id/tier', ...)] *)
Definition put_user_tier (id : string) (b_tier : option string)
  : Db -> Reply TierView * Db :=
  handle (
  let* user :=
    update prisma_user id
      (fun u =>
         match b_tier with
         | Some t_ =>
             if valid_tier t_ then
               Some {| email := email u; userName := userName u; phone := phone u;
                       role := role u; tier := t_ |}
             else None
         | None => Some u
         end) in
  ret (Json 200 {| tv_id := user.1; tv_email := email user.2;
                   tv_name := userName user.2; tv_tier := tier user.2 |})).
End Tiers.

(** The sum of the [total] column over rows of the order table. *)
Fixpoint sum_of_order_totals (l : list (string * Order)) : Q :=
  match l with
  | [] => 0%Q
  | io :: r => (total io.2 + sum_of_order_totals r)%Q
  end.

(** [prisma.order.aggregate({ where, _sum: { total: true } })]: the field
  [_sum.total], which is [null] when no row is found. *)
Definition aggregate_sum_total (where_ : string -> Order -> bool) : Prisma Db (option Q) :=
  fun db =>
    (inr (match matching prisma_order where_ db with
          | [] => None
          | l => Some (sum_of_order_totals l)
          end), db).

(** [x || 0] for a number that may be [null]. *)
Definition or_zero_null (x : option Q) : Q :=
  match x with
  | Some q => if Qeq_bool q 0 then 0%Q else q
  | None => 0%Q
  end.

Record Stats := {
  st_totalOrders : Z;
  st_pendingOrders : Z;
  st_totalRevenue : Q;
  st_totalUsers : Z;
  st_lowStockProducts : Z
  }.

(** [router.get('/stats', ...)] *)
Definition get_stats : Db -> Reply Stats * Db :=
  handle (
    let* totalOrders_ := count prisma_order (fun _ _ => true) in
    let* pendingOrders_ :=
      count prisma_order
        (fun _ o => matches {| w_status := Some "PENDING"; w_status_in := None;
                               w_createdAt := None |} o) in
    let* totalRevenue_ :=
      aggregate_sum_total
        (fun _ o => matches {| w_status := None;
                               w_status_in := Some ["DELIVERED"; "CONFIRMED"];
                               w_createdAt := None |} o) in
    let* totalUsers_ := count prisma_user (fun _ _ => true) in
    let* lowStockProducts_ :=
      count prisma_product (fun _ p => stock p <=? lowStockAlert p) in
    ret (Json 200 {| st_totalOrders := totalOrders_;
                     st_pendingOrders := pendingOrders_;
                     st_totalRevenue := or_zero_null totalRevenue_;
                     st_totalUsers := totalUsers_;
                     st_lowStockProducts := lowStockProducts_ |})).

End Admin.

(** ** Sample data *)

Module Samples.

Definition home_of (u : string) (d : bool) : Address :=
  {| userId := u; type := Some "HOME"; name := Some "Home";
     street := Some "1 Orchard Road"; unit_ := None; building := None;
     postalCode := Some "238823"; district := None; isDefault := d;
     deliveryNotes := None |}.

(** Two addresses of [u1], both flagged default, and one of [u2]. *)
Definition address_book : Db :=
  {| users := ∅;
     addresses := <["a1" := home_of "u1" true]>
                    (<["a2" := home_of "u1" true]> (<["b1" := home_of "u2" true]> ∅));
     products := ∅; reviews := ∅; orders := ∅; orderItems := ∅ |}.

Definition new_home : Users.AddressBody :=
  {| Users.b_type := Some "HOME"; Users.b_name := Some "New home";
     Users.b_street := Some "5 Bukit Timah Road"; Users.b_unit := Some "#03-01";
     Users.b_building := None; Users.b_postalCode := Some "229899";
     Users.b_district := None; Users.b_isDefault := Some true;
     Users.b_deliveryNotes := None |}.



(** A store whose address types are an enum. *)
Definition known_type (a : Address) : bool :=
  bool_decide (type a ∈ [Some "HOME"; Some "OFFICE"; Some "OTHER"]).


(** A store that refuses to delete an address that orders reference, and
    one that deletes those orders with it. *)
Definition refuse (id : string) (os : gmap string Order) : option (gmap string Order) :=
  None.

Definition cascade (id : string) (os : gmap string Order) : option (gmap string Order) :=
  Some (filter (fun ko : string * Order => orderAddress ko.2 <> id) os).

Definition plain_office : Users.AddressBody :=
  {| Users.b_type := Some "OFFICE"; Users.b_name := Some "Office";
     Users.b_street := Some "9 Raffles Place"; Users.b_unit := None;
     Users.b_building := None; Users.b_postalCode := Some "048619";
     Users.b_district := None; Users.b_isDefault := None;
     Users.b_deliveryNotes := None |}.

Definition scarf : Product :=
  {| productName := "Red Silk Scarf "; slug := ""; description := "A scarf of red silk";
     price := 35%Q; stock := 12; category := "Accessories"; brand := "Soora";
     isActive := true; isFeatured := false; viewCount := 0; salesCount := 0;
     lowStockAlert := 5; productCreatedAt := 1700000000000 |}.

Definition empty_db : Db :=
  {| users := ∅; addresses := ∅; products := ∅; reviews := ∅; orders := ∅;
     orderItems := ∅ |}.

Definition product (n c : string) (p : Q) (active : bool) (views : Z) : Product :=
  {| productName := n; slug := Admin.slug_of n; description := ""; price := p;
     stock := 10; category := c; brand := "Soora"; isActive := active;
     isFeatured := false; viewCount := views; salesCount := 0;
     lowStockAlert := 5; productCreatedAt := 1700000000000 + views |}.

(** An active accessory at 35, a retired one at 20, a dear one at 80 and
    a shirt at 30. *)
Definition catalogue : Db :=
  {| users := {[ "u1" := {| email := "amy@example.com"; userName := Some "Amy";
                            phone := None; role := "CUSTOMER"; tier := "GOLD" |} ]};
     addresses := ∅;
     products := <["p1" := product "Silk Scarf" "Accessories" 35 true 7]>
                   (<["p2" := product "Old Belt" "Accessories" 20 false 3]>
                      (<["p3" := product "Gold Watch" "Accessories" 80 true 1]>
                         (<["p4" := product "Linen Shirt" "Apparel" 30 true 0]> ∅)));
     reviews := {[ "r1" := {| reviewProduct := "p1"; reviewUser := "u1"; rating := 5;
                              comment := Some "Lovely"; isPublished := true |} ]};
     orders := ∅; orderItems := ∅ |}.

(** The members of the [OrderStatus] enum taken for the examples. *)
Definition known_status (s : string) : bool :=
  bool_decide (s ∈ ["PENDING"; "CONFIRMED"; "SHIPPED"; "DELIVERED"; "CANCELLED"]).

Definition order_of (s : string) (t : Q) (at_ : Z) (done : option Z) : Order :=
  {| orderUser := "u1"; orderAddress := "a1"; status := s; total := t;
     orderCreatedAt := at_; deliveredAt := done |}.

(** Four orders: one delivered, one confirmed, one pending, one shipped. *)
Definition ledger : Db :=
  {| users := {[ "u1" := {| email := "amy@example.com"; userName := Some "Amy";
                            phone := None; role := "CUSTOMER"; tier := "GOLD" |} ]};
     addresses := {[ "a1" := home_of "u1" true ]};
     products := {[ "p1" := product "Silk Scarf" "Accessories" 35 true 7 ]};
     reviews := ∅;
     orders := <["o1" := order_of "DELIVERED" 70 100 (Some 150)]>
                 (<["o2" := order_of "CONFIRMED" 35 200 None]>
                    (<["o3" := order_of "PENDING" 105 300 None]>
                       (<["o4" := order_of "SHIPPED" 35 400 None]> ∅)));
     orderItems := {[ "i1" := {| itemOrder := "o1"; itemProduct := "p1";
                                 quantity := 2; itemPrice := 35%Q |} ]} |}.

Definition accessories_10_50 : Products.ProductQuery :=
  {| Products.q_category := Some "Accessories"; Products.q_brand := None;
     Products.q_minPrice := Some 10%Q; Products.q_maxPrice := Some 50%Q;
     Products.q_search := None; Products.q_page := None; Products.q_limit := None;
     Products.q_sortBy := None; Products.q_order := None |}.

(** Page 2 of the catalogue, one product to the page. *)
Definition second_of_three : Products.ProductQuery :=
  {| Products.q_category := None; Products.q_brand := None;
     Products.q_minPrice := None; Products.q_maxPrice := None;
     Products.q_search := None; Products.q_page := Some 2; Products.q_limit := Some 1;
     Products.q_sortBy := None; Products.q_order := None |}.

Definition featured_product (n : string) (sales : Z) (active : bool) : Product :=
  {| productName := n; slug := Admin.slug_of n; description := ""; price := 20%Q;
     stock := 3; category := "Accessories"; brand := "Soora"; isActive := active;
     isFeatured := true; viewCount := 0; salesCount := sales;
     lowStockAlert := 5; productCreatedAt := 1700000000000 |}.

(** Three featured products, one of them retired, and one that is not
    featured. *)
Definition showcase : Db :=
  {| users := ∅; addresses := ∅;
     products := <["f1" := featured_product "Tote Bag" 40 true]>
                   (<["f2" := featured_product "Silk Tie" 90 true]>
                      (<["f3" := featured_product "Old Cap" 500 false]>
                         (<["p1" := product "Silk Scarf" "Accessories" 35 true 7]> ∅)));
     reviews := ∅; orders := ∅; orderItems := ∅ |}.

(** The members of the tier enum taken for the examples. *)
Definition known_tier (s : string) : bool :=
  bool_decide (s ∈ ["BRONZE"; "SILVER"; "GOLD"]).

End Samples.

(** * Properties *)

(** ** The address handlers *)

Section UsersFacts.
Import Users.

Lemma unset_defaults_lookup caller keep t i :
  unset_defaults caller keep t !! i =
  (fun a => if bool_decide (userId a = caller) && bool_decide (isDefault a = true)
               && negb (bool_decide (Some i = keep))
            then clear_default a else a) <$> t !! i.
Proof.
  unfold unset_defaults. rewrite map_lookup_imap.
  destruct (t !! i); reflexivity.
Qed.

Lemma unset_defaults_create caller t :
  map_imap (fun (_ : string) a =>
    Some (if bool_decide (userId a = caller) && bool_decide (isDefault a = true)
          then clear_default a else a)) t
  = unset_defaults caller None t.
Proof.
  apply map_eq; intros i. rewrite unset_defaults_lookup, map_lookup_imap.
  destruct (t !! i) as [a|]; simpl; [|reflexivity].
  rewrite andb_true_r. reflexivity.
Qed.

Lemma unset_defaults_update caller id t :
  map_imap (fun (i : string) a =>
    Some (if bool_decide (userId a = caller) && bool_decide (isDefault a = true)
             && negb (bool_decide (i = id))
          then clear_default a else a)) t
  = unset_defaults caller (Some id) t.
Proof.
  apply map_eq; intros i. rewrite unset_defaults_lookup, map_lookup_imap.
  destruct (t !! i) as [a|]; simpl; [|reflexivity].
  rewrite (bool_decide_ext (i = id) (Some i = Some id)) by naive_solver.
  reflexivity.
Qed.

(** A well-typed body is data that the client accepts. *)
Lemma write_text_string (o old : option string) :
  write_text (JString <$> o) old = Some (assign (Some <$> o) old).
Proof. by destruct o. Qed.


Lemma js_truthy_raw_of body :
  js_truthy (r_isDefault (raw_of body)) = truthy (b_isDefault body).
Proof. unfold raw_of. simpl. by destruct (b_isDefault body) as [[]|]. Qed.

Lemma create_fields_raw_of caller body :
  create_fields caller (raw_of body) = Some (created_row caller body).
Proof.
  unfold create_fields, raw_of, created_row, flag_or_false. simpl.
  rewrite !write_text_string. simpl.
  destruct (b_isDefault body) as [[]|]; simpl;
    by destruct (b_type body), (b_name body), (b_street body), (b_unit body),
         (b_building body), (b_postalCode body), (b_district body),
         (b_deliveryNotes body).
Qed.


Lemma create_data_raw_of accepts caller body :
  accepts (created_row caller body) = true ->
  create_data accepts caller (raw_of body) = Some (created_row caller body).
Proof.
  intros Hok. unfold create_data, checked. rewrite create_fields_raw_of. simpl.
  by rewrite Hok.
Qed.


(** What [POST /addresses] does on a well-typed request that passes
    validation, gets a fresh id and gives a row that the store takes. *)
Lemma post_addresses_run accepts caller body newId db :
  addresses db !! newId = None ->
  accepts (created_row caller body) = true ->
  post_addresses accepts caller [] (raw_of body) newId db =
  (Json 201 (newId, created_row caller body),
   set_addresses
     (fun t => <[newId := created_row caller body]>
                 (if truthy (b_isDefault body) then unset_defaults caller None t else t))
     db).
Proof.
  intros Hfresh Hok.
  unfold post_addresses, handle, bind, create, updateMany, modify, ret.
  rewrite (create_data_raw_of _ _ _ Hok), js_truthy_raw_of.
  simpl. destruct (truthy (b_isDefault body)); simpl; unfold set_addresses; simpl.
  - rewrite unset_defaults_create, unset_defaults_lookup, Hfresh. reflexivity.
  - rewrite Hfresh. reflexivity.
Qed.


(** After the mass unset, a default row of the caller can only be [keep]. *)
Lemma unset_defaults_clears caller keep t i a :
  unset_defaults caller keep t !! i = Some a ->
  userId a = caller -> isDefault a = true -> Some i = keep.
Proof.
  rewrite unset_defaults_lookup. destruct (t !! i) as [a0|]; simpl; [|done].
  intros [= <-] Hu Hd.
  destruct (decide (Some i = keep)) as [|Hne]; [done|].
  rewrite (bool_decide_eq_false_2 _ Hne) in Hu, Hd. simpl in *.
  rewrite andb_true_r in Hu, Hd.
  destruct (bool_decide (userId a0 = caller)) eqn:E1;
    destruct (bool_decide (isDefault a0 = true)) eqn:E2; simpl in *;
    try discriminate.
  - apply bool_decide_eq_false in E2. contradiction.
  - apply bool_decide_eq_false in E1. contradiction.
  - apply bool_decide_eq_false in E1. contradiction.
Qed.

(** Rows of other users, and the kept row, are not touched by it. *)
Lemma unset_defaults_frame caller keep t i a :
  t !! i = Some a -> userId a <> caller \/ Some i = keep ->
  unset_defaults caller keep t !! i = Some a.
Proof.
  intros Ha Hor. rewrite unset_defaults_lookup, Ha. simpl.
  destruct Hor as [Hu|Hk].
  - rewrite (bool_decide_eq_false_2 _ Hu). reflexivity.
  - rewrite (bool_decide_eq_true_2 _ Hk), andb_false_r. reflexivity.
Qed.

Lemma sole_default_insert caller keep id row t :
  userId row = caller -> isDefault row = true ->
  (keep = None \/ keep = Some id) ->
  sole_default caller id (<[id := row]> (unset_defaults caller keep t)).
Proof.
  intros Hu Hd Hkeep. split.
  - exists row. rewrite lookup_insert_eq. done.
  - intros i a Hi Hua Hda.
    destruct (decide (i = id)) as [|Hne]; [done|].
    rewrite lookup_insert_ne in Hi by done.
    pose proof (unset_defaults_clears _ _ _ _ _ Hi Hua Hda) as Hk.
    destruct Hkeep as [->| ->]; [discriminate | congruence].
Qed.

(** A duplicate-free list whose members all equal [x] and that holds [x]
    is the list [[x]]. *)
Lemma nodup_singleton {A} (x : A) (l : list A) :
  NoDup l -> x ∈ l -> (forall y, y ∈ l -> y = x) -> l = [x].
Proof.
  intros Hnd Hin Hall. destruct l as [|y l]; [by apply elem_of_nil in Hin|].
  assert (y = x) as -> by (apply Hall; left).
  destruct l as [|z l]; [done|].
  assert (z = x) as -> by (apply Hall; right; left).
  apply NoDup_cons in Hnd as [Hnot _]. exfalso. apply Hnot. left.
Qed.



End UsersFacts.

Section UsersClaims.
Import Users Samples.




(** C3.  An update or a delete of an address that does not exist, or that
    another user owns, answers 404 and leaves the database as it was. *)
Theorem foreign_address_is_not_found (accepts : Address -> bool)
    (on_delete : string -> gmap string Order -> option (gmap string Order))
    caller id body db :
  (addresses db !! id = None \/
   exists e, addresses db !! id = Some e /\ userId e <> caller) ->
  put_address accepts caller id body db = (Failure 404 "Address not found", db) /\
  delete_address on_delete caller id db = (Failure 404 "Address not found", db).
Proof.
  intros Hcase.
  unfold put_address, delete_address, handle, bind, findUnique, ret. simpl.
  destruct Hcase as [-> | (e & -> & Hother)]; [done|].
  rewrite (bool_decide_eq_false_2 _ Hother). done.
Qed.

Lemma foreign_address_is_not_found_witness :
  put_address known_type "u1" "b1" (raw_of new_home) address_book
    = (Failure 404 "Address not found", address_book) /\
  delete_address refuse "u1" "b1" address_book
    = (Failure 404 "Address not found", address_book).
Proof.
  apply foreign_address_is_not_found. right.
  exists (home_of "u2" true). split; [vm_compute; reflexivity | discriminate].
Defined.

(** C10.  A create or an update whose default flag is [false] or absent
    changes no address other than the one it writes: the mass unset is
    skipped, so the [isDefault] flag (and every other column) of the other
    addresses stays as it was. *)
Theorem unflagged_write_keeps_other_addresses accepts caller body db :
  r_isDefault body = Some (JBool false) \/ r_isDefault body = None ->
  (forall errors newId i, i <> newId ->
     addresses (post_addresses accepts caller errors body newId db).2 !! i
     = addresses db !! i) /\
  (forall id i, i <> id ->
     addresses (put_address accepts caller id body db).2 !! i = addresses db !! i).
Proof.
  intros Hflag.
  assert (Hskip : js_truthy (r_isDefault body) = false)
    by (destruct Hflag as [-> | ->]; reflexivity).
  split.
  - intros errors newId i Hne.
    unfold post_addresses, handle, bind, create, throw, ret. rewrite Hskip. simpl.
    destruct (bool_decide (errors = [])); simpl; [|done].
    destruct (create_data accepts caller body) as [row|]; simpl; [|done].
    destruct (addresses db !! newId); simpl; [done|].
    by rewrite lookup_insert_ne.
  - intros id i Hne.
    unfold put_address, handle, bind, findUnique, update, ret. rewrite Hskip. simpl.
    destruct (addresses db !! id) as [e|] eqn:He; simpl; [|done].
    destruct (bool_decide (userId e = caller)); simpl; [|done].
    rewrite He. destruct (update_data accepts body e) as [row|]; simpl; [|done].
    by rewrite lookup_insert_ne.
Qed.

Lemma unflagged_write_keeps_other_addresses_witness :
  addresses (post_addresses known_type "u1" [] (raw_of plain_office) "a3"
               address_book).2 !! "a1"
    = Some (home_of "u1" true) /\
  addresses (put_address known_type "u1" "a2" (raw_of plain_office) address_book).2 !! "a1"
    = Some (home_of "u1" true).
Proof.
  pose proof (unflagged_write_keeps_other_addresses known_type "u1" (raw_of plain_office)
                address_book (or_intror eq_refl)) as [Hc Hu].
  split.
  - rewrite (Hc [] "a3" "a1"); [vm_compute; reflexivity | discriminate].
  - rewrite (Hu "a2" "a1"); [vm_compute; reflexivity | discriminate].
Defined.
End UsersClaims.

(** ** The product slug *)

Section SlugFacts.
Import Admin Samples.

(** Skipping white space drops the leading white-space run, if any. *)
Lemma runs_skip_spaces s :
  runs (skip_spaces s) =
  match runs s with
  | (true, _) :: rest => rest
  | rs => rs
  end.
Proof.
  induction s as [|c r IH]; [reflexivity|].
  simpl. destruct (is_space c) eqn:Hc.
  - rewrite IH. destruct (runs r) as [|[[] g] rest]; reflexivity.
  - simpl. rewrite Hc.
    destruct (runs r) as [|[[] g] rest]; reflexivity.
Qed.

(** The regular-expression replacement is the replacement run by run. *)
Lemma replace_spaces_runs s : replace_spaces s = hyphenate (runs s).
Proof.
  funelim (replace_spaces s).
  - reflexivity.
  - rewrite H, runs_skip_spaces. simpl. rewrite Heq.
    destruct (runs r) as [|[[] g] rest]; reflexivity.
  - rewrite H. simpl. rewrite Heq.
    destruct (runs r) as [|[[] g] rest]; reflexivity.
Qed.

Lemma runs_maximal s : maximal_runs s (runs s).
Proof.
  unfold maximal_runs. induction s as [|c r (Hcat & Hall & Halt)].
  - simpl. split; [done|]. split; [constructor | done].
  - simpl. destruct (runs r) as [|[b g] rest] eqn:Hr.
    + simpl in *. subst r. split; [done|]. split; [|done].
      constructor; [|constructor]. simpl. split; [done|].
      by rewrite eqb_reflx.
    + apply Forall_cons in Hall as [[Hne Hg] Hall]. simpl in *.
      destruct (eqb b (is_space c)) eqn:Hb.
      * apply eqb_prop in Hb. subst b. simpl. split; [by rewrite <- Hcat|].
        split; [|done]. constructor; [|done]. simpl. split; [done|].
        by rewrite eqb_reflx, Hg.
      * simpl. split; [by rewrite <- Hcat|]. split.
        -- constructor; [|by constructor]. simpl. split; [done|].
           by rewrite eqb_reflx.
        -- split; [|done]. intros Hsame. by rewrite Hsame, eqb_reflx in Hb.
Qed.

(** C2 (as amended).  The slug stored by an admin product create is the
    product name in lower case with every maximal run of white space
    replaced by one hyphen; a run at the end of the name is replaced like
    any other, so the name "Red Silk Scarf " (with a trailing space) gets
    the slug "red-silk-scarf-". *)
Theorem product_slug_is_hyphenated body newId db :
  products db !! newId = None ->
  let r := post_products [] body newId db in
  let lowered := toLowerCase (productName body) in
  exists row,
    r.1 = Json 201 (newId, row) /\
    products r.2 !! newId = Some row /\
    slug row = hyphenate (runs lowered) /\
    maximal_runs lowered (runs lowered) /\
    (productName body = "Red Silk Scarf " -> slug row = "red-silk-scarf-").
Proof.
  intros Hfresh r lowered. subst r lowered.
  exists (with_slug (slug_of (productName body)) body).
  unfold post_products, handle, bind, create, ret. simpl. rewrite Hfresh. simpl.
  split; [done|]. split; [apply lookup_insert_eq|].
  split; [apply replace_spaces_runs|]. split; [apply runs_maximal|].
  intros ->. reflexivity.
Qed.

Lemma product_slug_is_hyphenated_witness :
  slug <$> products (post_products [] scarf "p1" empty_db).2 !! "p1"
    = Some "red-silk-scarf-".
Proof.
  destruct (product_slug_is_hyphenated scarf "p1" empty_db eq_refl)
    as (row & _ & -> & _ & _ & Hslug).
  simpl. f_equal. apply Hslug. reflexivity.
Defined.

(** The example of the claim as first stated: the stored slug of the name
    "Red Silk Scarf " is not "red-silk-scarf". *)
Lemma trailing_space_slug_keeps_hyphen :
  slug_of "Red Silk Scarf " = "red-silk-scarf-" /\
  slug <$> products (post_products [] scarf "p1" empty_db).2 !! "p1"
    <> Some "red-silk-scarf".
Proof.
  split; [reflexivity|]. vm_compute. discriminate.
Qed.
End SlugFacts.

(** ** Fetching one product *)

Section ProductFetch.
Import Products Samples.

(** What [GET /:id] does when the product exists: the reply carries the
    row that was read, the store the incremented row. *)
Lemma get_product_run id db p :
  products db !! id = Some p ->
  get_product id db =
  (Json 200 {| pv_id := id; pv_product := p; pv_reviews := published_reviews id db |},
   set_products (insert id (increment_viewCount 1 p)) db).
Proof.
  intros Hp. unfold get_product, handle, bind, findUnique_with_reviews, update, ret.
  simpl. rewrite Hp. simpl. rewrite Hp. reflexivity.
Qed.

Lemma get_product_missing id db :
  products db !! id = None ->
  get_product id db = (Failure 404 "Product not found", db).
Proof.
  intros Hp. unfold get_product, handle, bind, findUnique_with_reviews, ret.
  simpl. rewrite Hp. reflexivity.
Qed.

(** C5.  A fetch of an existing product adds exactly 1 to its [viewCount]
    and touches no other product; the next fetch of the same product
    replies with the counter as the first fetch left it.  When no product
    has the id the reply is 404 and nothing changes. *)
Theorem product_fetch_counts_one_view id db :
  (forall p, products db !! id = Some p ->
     let r := get_product id db in
     (exists v, r.1 = Json 200 v) /\
     (viewCount <$> products r.2 !! id) = Some (viewCount p + 1) /\
     (forall j, j <> id -> products r.2 !! j = products db !! j) /\
     (exists v', (get_product id r.2).1 = Json 200 v' /\
                 viewCount (pv_product v') = viewCount p + 1)) /\
  (products db !! id = None ->
     get_product id db = (Failure 404 "Product not found", db)).
Proof.
  split; [|apply get_product_missing].
  intros p Hp r. subst r. rewrite (get_product_run _ _ _ Hp). simpl.
  split; [eauto|]. split; [by rewrite lookup_insert_eq|].
  split; [intros j Hj; by rewrite lookup_insert_ne|].
  erewrite get_product_run; [|simpl; apply lookup_insert_eq].
  simpl. eauto.
Qed.

Lemma product_fetch_counts_one_view_witness :
  (viewCount <$> products (get_product "p1" catalogue).2 !! "p1") = Some 8 /\
  get_product "p9" catalogue = (Failure 404 "Product not found", catalogue).
Proof.
  destruct (product_fetch_counts_one_view "p1" catalogue) as [Hhit _].
  destruct (product_fetch_counts_one_view "p9" catalogue) as [_ Hmiss].
  split.
  - apply (Hhit (product "Silk Scarf" "Accessories" 35 true 7) eq_refl).
  - apply Hmiss. reflexivity.
Defined.

(** C9.  The product in the reply of a fetch is the row as it was read,
    before the increment: its [viewCount] is one less than the counter the
    store holds once the request is done. *)
Theorem product_reply_precedes_increment id db p :
  products db !! id = Some p ->
  let r := get_product id db in
  exists v stored,
    r.1 = Json 200 v /\ pv_product v = p /\
    products r.2 !! id = Some stored /\
    viewCount (pv_product v) = viewCount stored - 1.
Proof.
  intros Hp r. subst r. rewrite (get_product_run _ _ _ Hp). simpl.
  eexists _, _. split; [reflexivity|]. split; [reflexivity|].
  split; [apply lookup_insert_eq|]. simpl. lia.
Qed.

Lemma product_reply_precedes_increment_witness :
  exists v stored,
    (get_product "p1" catalogue).1 = Json 200 v /\
    pv_product v = product "Silk Scarf" "Accessories" 35 true 7 /\
    products (get_product "p1" catalogue).2 !! "p1" = Some stored /\
    viewCount (pv_product v) = viewCount stored - 1.
Proof.
  apply (product_reply_precedes_increment "p1" catalogue). reflexivity.
Defined.
End ProductFetch.

(** ** Listings: sorting, windows and page counts *)

Section Listing.
Context {A : Type}.

Lemma insert_sorted_perm (le : A -> A -> bool) x l :
  insert_sorted le x l ≡ₚ x :: l.
Proof.
  induction l as [|y l IH]; simpl; [done|].
  destruct (le x y); [done|]. rewrite IH. apply Permutation_swap.
Qed.

Lemma sort_by_perm (le : A -> A -> bool) l : sort_by le l ≡ₚ l.
Proof.
  induction l as [|x l IH]; simpl; [done|].
  rewrite insert_sorted_perm. by rewrite IH.
Qed.

Lemma sort_by_unordered (l : list A) : sort_by unordered l = l.
Proof. induction l as [|x l IH]; simpl; [done|]. rewrite IH. by destruct l. Qed.

Lemma window_valid skip take (l : list A) :
  0 <= skip -> 0 <= take ->
  window skip (Some take) l = Some (firstn (Z.to_nat take) (skipn (Z.to_nat skip) l)).
Proof.
  intros Hs Ht. unfold window.
  destruct (Z.ltb_spec skip 0); [lia|]. destruct (Z.ltb_spec take 0); [lia|]. done.
Qed.

(** Every row of a window is a row of the list it was cut from. *)
Lemma window_subseteq skip take (l page : list A) :
  window skip take l = Some page -> page ⊆ l.
Proof.
  unfold window. destruct (skip <? 0); [done|].
  destruct take as [n|]; [destruct (n <? 0)|]; intros [= <-]; intros x Hx.
  - rewrite elem_of_reverse in Hx.
    apply subseteq_take, subseteq_drop in Hx. by rewrite elem_of_reverse in Hx.
  - by apply subseteq_take, subseteq_drop in Hx.
  - by apply subseteq_drop in Hx.
Qed.
End Listing.

(** [Math.ceil(total / limit)] for a positive [limit]. *)
Lemma ceil_div_positive total limit :
  0 < limit ->
  js_ceil (js_div (inject_Z total) (inject_Z limit)) = Some (- ((- total) / limit)).
Proof.
  intros Hpos. unfold js_div.
  assert (Hnz : Qeq_bool (inject_Z limit) 0 = false).
  { destruct limit; try lia. reflexivity. }
  rewrite Hnz. simpl. f_equal.
  destruct limit as [|p|p]; try lia.
  unfold Qceiling, Qfloor, Qdiv, Qmult, Qinv, Qopp, inject_Z. simpl.
  rewrite Z.mul_1_r. reflexivity.
Qed.

Lemma ceil_div_is_ceiling total limit :
  0 < limit -> is_ceiling (- ((- total) / limit)) total limit.
Proof.
  intros Hpos. unfold is_ceiling.
  pose proof (Z.mul_div_le (- total) limit Hpos).
  pose proof (Z.mul_succ_div_gt (- total) limit Hpos).
  nia.
Qed.

Lemma pagination_of_page {A} (all found : list A) page_ limit_ :
  1 <= page_ -> 1 <= limit_ ->
  found = firstn (Z.to_nat limit_) (skipn (Z.to_nat ((page_ - 1) * limit_)) all) ->
  page_of all page_ limit_ found (pagination_of page_ limit_ (Z.of_nat (length all))).
Proof.
  intros Hp Hl ->. unfold page_of, pagination_of. simpl.
  split; [done|]. split; [rewrite length_take; lia|].
  do 3 (split; [done|]).
  rewrite ceil_div_positive by lia. eexists. split; [done|].
  apply ceil_div_is_ceiling. lia.
Qed.

Section FindManyFacts.
Context {Row : Type} (t : Delegate Row).

(** A [findMany] that succeeds reads the store without changing it, and
    every row it finds is a row of the table that satisfies [where]. *)
Lemma findMany_sound where_ le skip take db found db' :
  findMany t where_ le skip take db = (inr found, db') ->
  db' = db /\
  forall i r, (i, r) ∈ found -> rows t db !! i = Some r /\ where_ i r = true.
Proof.
  unfold findMany. destruct le as [le|]; [|done].
  destruct (window _ _ _) as [page_|] eqn:Hw; [|done].
  intros [= <- <-]. split; [done|]. intros i r Hin.
  apply (window_subseteq _ _ _ _ Hw) in Hin.
  rewrite sort_by_perm in Hin. unfold matching in Hin.
  apply list_elem_of_filter in Hin as [Hwhere Hin].
  by apply elem_of_map_to_list in Hin.
Qed.

Lemma findMany_page where_ le skip take db :
  0 <= skip -> 0 <= take ->
  findMany t where_ (Some le) skip (Some take) db =
  (inr (firstn (Z.to_nat take) (skipn (Z.to_nat skip) (sort_by le (matching t where_ db)))),
   db).
Proof.
  intros Hs Ht. unfold findMany. by rewrite window_valid.
Qed.

Lemma count_matching where_ le db :
  count t where_ db = (inr (Z.of_nat (length (sort_by le (matching t where_ db)))), db).
Proof. unfold count. by rewrite sort_by_perm. Qed.
End FindManyFacts.

Section ListingClaims.
Import Products Admin Samples.

(** A listing sorted on a column or in a direction that the client does not
    know is refused: the reply is a 500 and nothing is read or written. *)
Lemma get_products_bad_order q db :
  orderBy (default "createdAt" (q_sortBy q)) (default "desc" (q_order q)) = None ->
  get_products q db = (Failure 500 "Invalid orderBy argument.", db).
Proof.
  intros Hbad. unfold get_products, handle, bind, findMany. by rewrite Hbad.
Qed.

(** So is an order listing filtered on a status outside the enum. *)
Lemma get_orders_bad_status (valid_status : string -> bool) s q_page q_limit db :
  s <> "" -> valid_status s = false ->
  get_orders valid_status (Some s) q_page q_limit db
  = (Failure 500 "Invalid value for argument `status`.", db).
Proof.
  intros Hs Hbad. unfold get_orders, handle, bind, throw, present.
  rewrite (bool_decide_eq_false_2 _ Hs). by rewrite Hbad.
Qed.

(** C6.  With page and limit at least 1 (1 and 20 when absent), the
    product listing and the admin order listing reply with the window that
    skips [(page - 1) * limit] rows of the filtered, sorted rows and takes
    at most [limit]; the reply holds at most [limit] rows and its [pages]
    is the ceiling of [total / limit]. *)
Theorem listings_are_paged (valid_status : string -> bool) db :
  (forall q le,
     let page_ := default 1 (q_page q) in
     let limit_ := default 20 (q_limit q) in
     1 <= page_ -> 1 <= limit_ ->
     orderBy (default "createdAt" (q_sortBy q)) (default "desc" (q_order q)) = Some le ->
     exists resp,
       get_products q db = (Json 200 resp, db) /\
       page_of
         (sort_by le (matching prisma_product
                        (fun _ p => Products.matches (list_where q) p) db))
         page_ limit_ (pl_products resp) (pl_pagination resp)) /\
  (forall q_status q_page q_limit,
     let page_ := default 1 q_page in
     let limit_ := default 20 q_limit in
     1 <= page_ -> 1 <= limit_ ->
     (forall s, present q_status = Some s -> valid_status s = true) ->
     exists resp,
       get_orders valid_status q_status q_page q_limit db = (Json 200 resp, db) /\
       page_of
         (sort_by (fun a b => orderCreatedAt b.2 <=? orderCreatedAt a.2)
            (matching prisma_order
               (fun _ o => Admin.matches
                  {| w_status := present q_status; w_status_in := None;
                     w_createdAt := None |} o) db))
         page_ limit_
         ((fun v => (ov_id v, ov_order v)) <$> ol_orders resp)
         (ol_pagination resp)).
Proof.
  split.
  - intros q le page_ limit_ Hp Hl Hle.
    unfold get_products, handle, bind, ret. fold page_ limit_. rewrite Hle.
    rewrite findMany_page by nia.
    rewrite (count_matching prisma_product _ le).
    eexists. split; [reflexivity|]. simpl.
    by apply pagination_of_page.
  - intros q_status q_page q_limit page_ limit_ Hp Hl Hvalid.
    unfold get_orders, handle, bind, ret, get, throw. fold page_ limit_.
    assert (Hcheck : forall db0 : Db,
              match present q_status with
              | Some s => if valid_status s then (fun s0 : Db => (inr tt, s0))
                          else (fun s0 : Db =>
                                  (inl "Invalid value for argument `status`.", s0))
              | None => fun s0 : Db => (inr tt, s0)
              end db0 = (@inr string unit tt, db0)).
    { intros db0. destruct (present q_status) as [s|]; [|done].
      by rewrite (Hvalid s eq_refl). }
    rewrite Hcheck. rewrite findMany_page by nia.
    rewrite (count_matching prisma_order _
               (fun a b => orderCreatedAt b.2 <=? orderCreatedAt a.2)).
    eexists. split; [reflexivity|]. simpl.
    apply pagination_of_page; [done..|].
    rewrite <- list_fmap_compose.
    generalize (take (Z.to_nat limit_)
                  (drop (Z.to_nat ((page_ - 1) * limit_))
                     (sort_by (fun a b => orderCreatedAt b.2 <=? orderCreatedAt a.2)
                        (matching prisma_order
                           (fun _ o => Admin.matches
                              {| w_status := present q_status; w_status_in := None;
                                 w_createdAt := None |} o) db)))) as l.
    induction l as [|[i o] l IH]; [done|].
    rewrite fmap_cons. f_equal. exact IH.
Qed.

Lemma listings_are_paged_witness :
  (exists resp,
     get_products second_of_three catalogue = (Json 200 resp, catalogue) /\
     length (pl_products resp) = 1%nat /\
     pages (pl_pagination resp) = Some 3) /\
  (exists resp,
     get_orders known_status None (Some 1) (Some 3) ledger = (Json 200 resp, ledger) /\
     length (ol_orders resp) = 3%nat /\
     pages (ol_pagination resp) = Some 2).
Proof.
  destruct (listings_are_paged known_status catalogue) as [Hproducts _].
  destruct (listings_are_paged known_status ledger) as [_ Horders].
  split.
  - edestruct (Hproducts second_of_three) as (resp & Hrun & Hpage);
      [| | reflexivity |]; [simpl; lia..|].
    exists resp. split; [exact Hrun|].
    destruct Hpage as (Hfound & _ & _ & _ & Htotal & n & Hn & Hceil).
    split; [by rewrite Hfound|].
    rewrite Hn. f_equal. unfold is_ceiling in Hceil. rewrite Htotal in Hceil.
    change (Z.of_nat (length _)) with 3 in Hceil. simpl in Hceil. lia.
  - edestruct (Horders None (Some 1) (Some 3)) as (resp & Hrun & Hpage);
      [simpl; lia | simpl; lia | discriminate |].
    exists resp. split; [exact Hrun|].
    destruct Hpage as (Hfound & _ & _ & _ & Htotal & n & Hn & Hceil).
    split; [by rewrite <- (length_fmap (fun v => (ov_id v, ov_order v))), Hfound|].
    rewrite Hn. f_equal. unfold is_ceiling in Hceil. rewrite Htotal in Hceil.
    change (Z.of_nat (length _)) with 4 in Hceil. simpl in Hceil. lia.
Defined.
End ListingClaims.

Section FilterClaims.
Import Products Samples.

(** What a row that satisfies the [where] object of [GET /] looks like. *)
Lemma list_where_sound q p :
  Products.matches (list_where q) p = true ->
  isActive p = true /\
  (forall c, present (q_category q) = Some c -> c <> "All" -> category p = c) /\
  (forall b, present (q_brand q) = Some b -> brand p = b) /\
  (forall lo, q_minPrice q = Some lo -> (lo <= price p)%Q) /\
  (forall hi, q_maxPrice q = Some hi -> (price p <= hi)%Q).
Proof.
  unfold Products.matches, list_where. simpl.
  rewrite !andb_true_iff. intros [[[[[Hact _] Hcat] Hbrand] Hprice] _].
  split; [by destruct (isActive p)|].
  split.
  { intros c Hc Hall. rewrite Hc in Hcat.
    rewrite (bool_decide_eq_false_2 _ Hall) in Hcat.
    by apply bool_decide_eq_true in Hcat. }
  split.
  { intros b Hb. rewrite Hb in Hbrand. by apply bool_decide_eq_true in Hbrand. }
  split.
  - intros lo Hlo. rewrite Hlo in Hprice. unfold in_range in Hprice.
    destruct (q_maxPrice q); simpl in Hprice;
      apply andb_true_iff in Hprice as [Hge _]; by apply Qle_bool_iff.
  - intros hi Hhi. rewrite Hhi in Hprice. unfold in_range in Hprice.
    destruct (q_minPrice q); simpl in Hprice;
      [apply andb_true_iff in Hprice as [_ Hprice]|]; by apply Qle_bool_iff.
Qed.

(** C8.  Every product of a public listing is a row of the store with
    [isActive = true]; a category parameter other than "All" fixes the
    category of every product listed, a [minPrice] and a [maxPrice] bound
    its price from below and from above (so [minPrice=10], [maxPrice=50],
    [category=Accessories] lists only active Accessories priced in
    [[10, 50]]); the category "All" gives the listing of a request with no
    category at all. *)
Theorem public_listing_is_filtered q db resp :
  (get_products q db).1 = Json 200 resp ->
  (forall i p, (i, p) ∈ pl_products resp ->
     products db !! i = Some p /\
     isActive p = true /\
     (forall c, q_category q = Some c -> c <> "" -> c <> "All" -> category p = c) /\
     (forall lo, q_minPrice q = Some lo -> (lo <= price p)%Q) /\
     (forall hi, q_maxPrice q = Some hi -> (price p <= hi)%Q)) /\
  get_products (with_category (Some "All") q) db
    = get_products (with_category None q) db.
Proof.
  intros Hrun. split; [|reflexivity].
  intros i p Hin.
  unfold get_products, handle, bind, ret in Hrun.
  destruct (findMany _ _ _ _ _ db) as [[msg|found] db'] eqn:Hfind; [done|].
  apply findMany_sound in Hfind as [-> Hfound].
  unfold count in Hrun. simpl in Hrun. injection Hrun as <-. simpl in Hin.
  destruct (Hfound i p Hin) as [Hrow Hwhere].
  apply list_where_sound in Hwhere as (Hact & Hcat & _ & Hlo & Hhi).
  split; [done|]. split; [done|]. split; [|done].
  intros c Hc Hne Hall. apply Hcat; [|done].
  rewrite Hc. unfold present. by rewrite (bool_decide_eq_false_2 _ Hne).
Qed.

Lemma public_listing_is_filtered_witness :
  exists resp,
    (get_products accessories_10_50 catalogue).1 = Json 200 resp /\
    pl_products resp = [("p1", product "Silk Scarf" "Accessories" 35 true 7)] /\
    forall i p, (i, p) ∈ pl_products resp ->
      isActive p = true /\ category p = "Accessories" /\
      (10 <= price p)%Q /\ (price p <= 50)%Q.
Proof.
  eexists. split; [reflexivity|]. split; [reflexivity|].
  intros i p Hin.
  destruct (public_listing_is_filtered accessories_10_50 catalogue _ eq_refl)
    as [Hall _].
  destruct (Hall i p Hin) as (_ & Hact & Hcat & Hlo & Hhi).
  split; [exact Hact|]. split; [by apply Hcat|].
  split; [by apply Hlo | by apply Hhi].
Defined.
End FilterClaims.

(** ** The admin order handlers *)

Section AdminClaims.
Import Admin Samples.

(** C4.  A status update of an existing order with status DELIVERED
    stamps [deliveredAt] with the time of the request; with any other
    status (or none) [deliveredAt] keeps the value it had.  In both cases
    the other columns of the order, the other orders and the other tables
    are as before. *)
Theorem order_status_update_stamps_delivery
    (valid_status : string -> bool) id b_status now db o :
  orders db !! id = Some o ->
  valid_status "DELIVERED" = true ->
  let r := put_order_status valid_status id b_status now db in
  (b_status = Some "DELIVERED" ->
     exists v o',
       r.1 = Json 200 v /\ ov_order v = o' /\ orders r.2 !! id = Some o' /\
       status o' = "DELIVERED" /\ deliveredAt o' = Some now /\
       same_but_status o o') /\
  (b_status <> Some "DELIVERED" ->
     exists o',
       orders r.2 !! id = Some o' /\ deliveredAt o' = deliveredAt o /\
       same_but_status o o' /\
       (forall s, b_status = Some s -> valid_status s = true ->
          status o' = s /\ exists v, r.1 = Json 200 v /\ ov_order v = o')) /\
  (forall j, j <> id -> orders r.2 !! j = orders db !! j) /\
  set_orders (fun _ => orders db) r.2 = db.
Proof.
  intros Ho Hdelivered r. subst r.
  unfold put_order_status, handle, bind, update, get, ret. simpl. rewrite Ho.
  split; [|split; [|split]].
  - intros ->. rewrite Hdelivered. simpl.
    eexists _, _. split; [reflexivity|]. split; [reflexivity|].
    split; [apply lookup_insert_eq|]. by repeat split.
  - intros Hother. destruct b_status as [s|].
    + destruct (valid_status s) eqn:Hs; simpl.
      * rewrite (bool_decide_eq_false_2 (s = "DELIVERED")) by congruence.
        eexists. split; [apply lookup_insert_eq|]. split; [done|].
        split; [by repeat split|]. intros ? [= <-] _. split; [done|]. eauto.
      * exists o. split; [done|]. split; [done|]. split; [by repeat split|].
        intros ? [= <-] Hv. congruence.
    + simpl. eexists. split; [apply lookup_insert_eq|]. split; [done|].
      split; [by repeat split|]. done.
  - intros j Hj.
    destruct b_status as [s|]; [destruct (valid_status s)|]; simpl;
      try done; by rewrite lookup_insert_ne.
  - destruct db. destruct b_status as [s|]; [destruct (valid_status s)|]; done.
Qed.

Lemma order_status_update_stamps_delivery_witness :
  (deliveredAt <$>
     orders (put_order_status known_status "o2" (Some "DELIVERED") 999 ledger).2 !! "o2")
    = Some (Some 999) /\
  (deliveredAt <$>
     orders (put_order_status known_status "o1" (Some "CANCELLED") 999 ledger).2 !! "o1")
    = Some (Some 150).
Proof.
  split.
  - destruct (order_status_update_stamps_delivery known_status "o2"
                (Some "DELIVERED") 999 ledger (order_of "CONFIRMED" 35 200 None)
                eq_refl eq_refl) as [Hd _].
    destruct (Hd eq_refl) as (v & o' & _ & _ & Hrow & _ & Hstamp & _).
    rewrite Hrow. simpl. rewrite Hstamp. reflexivity.
  - destruct (order_status_update_stamps_delivery known_status "o1"
                (Some "CANCELLED") 999 ledger (order_of "DELIVERED" 70 100 (Some 150))
                eq_refl eq_refl) as (_ & Hother & _).
    destruct (Hother ltac:(discriminate)) as (o' & Hrow & Hkept & _).
    rewrite Hrow. simpl. rewrite Hkept. reflexivity.
Defined.

(** [reduce] sums from the left; the sum is the same as from the right. *)
Lemma fold_left_totals (l : list OrderView) (acc : Q) :
  (fold_left (fun sum order => sum + total (ov_order order)) l acc
   == acc + sum_of_totals l)%Q.
Proof.
  revert acc. induction l as [|o l IH]; intros acc; simpl.
  - by rewrite Qplus_0_r.
  - rewrite IH. by rewrite Qplus_assoc.
Qed.

(** C7.  The sales report replies with the DELIVERED and CONFIRMED orders
    of the store (within the dates, when both are given); [totalOrders] is
    their number, [totalRevenue] the sum of their [total] fields, and
    [averageOrderValue] is [totalRevenue / totalOrders] when there is an
    order and 0 when there is none. *)
Theorem sales_report_aggregates startDate endDate db :
  exists rep,
    get_sales_report startDate endDate db = (Json 200 rep, db) /\
    (forall v, v ∈ sr_orders rep ->
       orders db !! ov_id v = Some (ov_order v) /\
       (status (ov_order v) = "DELIVERED" \/ status (ov_order v) = "CONFIRMED")) /\
    (forall i o, orders db !! i = Some o ->
       status o = "DELIVERED" \/ status o = "CONFIRMED" ->
       startDate = None \/ endDate = None ->
       exists v, v ∈ sr_orders rep /\ ov_id v = i /\ ov_order v = o) /\
    totalOrders rep = Z.of_nat (length (sr_orders rep)) /\
    (totalRevenue rep == sum_of_totals (sr_orders rep))%Q /\
    (0 < totalOrders rep ->
       exists q, averageOrderValue rep = Finite q /\
                 (q == totalRevenue rep / inject_Z (totalOrders rep))%Q) /\
    (totalOrders rep = 0 -> averageOrderValue rep = Finite 0).
Proof.
  unfold get_sales_report, handle, bind, findMany, get, ret. simpl.
  rewrite sort_by_unordered. change (Z.to_nat 0) with 0%nat. rewrite drop_0.
  eexists. split; [reflexivity|]. simpl.
  set (where_ := {| w_status := None;
                    w_status_in := Some ["DELIVERED"; "CONFIRMED"];
                    w_createdAt := _ |}).
  set (found := matching prisma_order (fun _ o => Admin.matches where_ o) db).
  set (view := fun io : string * Order => _).
  split; [|split; [|split; [|split; [|split]]]].
  - intros v (io & -> & Hin)%list_elem_of_fmap. simpl.
    apply list_elem_of_filter in Hin as [Hw Hin].
    destruct io as [i o]. apply elem_of_map_to_list in Hin. simpl in *.
    split; [done|].
    unfold Admin.matches in Hw. simpl in Hw.
    apply andb_true_iff in Hw as [Hw _]. apply bool_decide_eq_true in Hw.
    apply elem_of_cons in Hw as [Hw|Hw]; [by left|].
    apply list_elem_of_singleton in Hw. by right.
  - intros i o Hio Hst Hdates. exists (view (i, o)). split; [|done].
    apply list_elem_of_fmap. exists (i, o). split; [done|].
    apply list_elem_of_filter. split; [|by apply elem_of_map_to_list].
    unfold Admin.matches, where_. simpl.
    rewrite bool_decide_eq_true_2
      by (destruct Hst as [-> | ->]; [left | right; left]).
    destruct Hdates as [-> | ->]; [done|]. by destruct startDate.
  - done.
  - rewrite (fold_left_totals (view <$> found) 0%Q). apply Qplus_0_l.
  - intros Hpos. unfold js_div.
    assert (Hnz : Qeq_bool (inject_Z (Z.of_nat (length (view <$> found)))) 0 = false).
    { destruct (Z.of_nat _); [lia | done | done]. }
    rewrite Hnz.
    match goal with |- context [Finite ?x] => set (avg := x) end.
    unfold or_zero.
    destruct (Qeq_bool avg 0) eqn:Hzero; eexists; (split; [reflexivity|]).
    + apply Qeq_bool_iff in Hzero. by rewrite Hzero.
    + reflexivity.
  - intros Hnone. destruct (view <$> found); [done|]. simpl in Hnone. lia.
Qed.

Lemma sales_report_aggregates_witness :
  exists rep,
    get_sales_report None None ledger = (Json 200 rep, ledger) /\
    totalOrders rep = 2 /\
    (totalRevenue rep == 105)%Q /\
    exists q, averageOrderValue rep = Finite q /\ (q == 105 / 2)%Q.
Proof.
  destruct (sales_report_aggregates None None ledger)
    as (rep & Hrun & _ & _ & Hcount & Hsum & Havg & _).
  exists rep. split; [exact Hrun|].
  pose proof Hrun as Hrep. vm_compute in Hrep. injection Hrep as Hrep.
  assert (Htwo : totalOrders rep = 2) by (by rewrite <- Hrep).
  assert (Hrevenue : (totalRevenue rep == 105)%Q) by (by rewrite <- Hrep).
  split; [exact Htwo|]. split; [exact Hrevenue|].
  destruct Havg as (q & Hq & Hmean); [by rewrite Htwo|].
  exists q. split; [exact Hq|]. by rewrite Hmean, Hrevenue, Htwo.
Defined.
End AdminClaims.

(** ** More on the address and profile handlers *)

Section UsersMore.
Import Users Samples.

(** What the store accepts as the data of a create or of an update: the
    owner is the caller (the row's owner), and a row that is written as a
    default one had a truthy flag in the body, or was a default one. *)
Lemma checked_Some accepts o row :
  checked accepts o = Some row -> o = Some row.
Proof.
  unfold checked. destruct o as [r|]; simpl; [|done].
  destruct (accepts r); [|done]. by intros [= <-].
Qed.

Lemma create_data_spec accepts caller raw row :
  create_data accepts caller raw = Some row ->
  userId row = caller /\
  (isDefault row = true -> js_truthy (r_isDefault raw) = true).
Proof.
  intros H%checked_Some. unfold create_fields in H.
  repeat (apply bind_Some in H as (? & ? & H)).
  injection H as <-. simpl. split; [done|]. intros ->.
  unfold flag_or_false in *. by destruct (js_truthy (r_isDefault raw)).
Qed.

Lemma update_data_spec accepts raw e row :
  update_data accepts raw e = Some row ->
  userId row = userId e /\
  (isDefault row = true ->
   js_truthy (r_isDefault raw) = true \/ isDefault e = true).
Proof.
  intros H%checked_Some. unfold update_fields in H.
  repeat (apply bind_Some in H as (? & ? & H)).
  injection H as <-. simpl. split; [done|]. intros ->.
  match goal with Hf : write_flag _ _ = Some true |- _ => revert Hf end.
  destruct (r_isDefault raw) as [[| [] | | |]|]; simpl; intros Hf;
    try discriminate; [by left|]. right. congruence.
Qed.

(** The three writes the address handlers make, as changes of the table. *)
Lemma post_addresses_table accepts caller errors body newId db :
  let t := addresses db in
  let t1 := if js_truthy (r_isDefault body) then unset_defaults caller None t else t in
  addresses (post_addresses accepts caller errors body newId db).2 =
  if bool_decide (errors = []) then
    match create_data accepts caller body, t1 !! newId with
    | Some row, None => <[newId := row]> t1
    | _, _ => t1
    end
  else t.
Proof.
  simpl. unfold post_addresses, handle, bind, create, updateMany, modify, throw, ret.
  destruct (bool_decide (errors = [])); simpl; [|done].
  destruct (js_truthy (r_isDefault body)); simpl; unfold set_addresses; simpl.
  - rewrite unset_defaults_create.
    destruct (create_data accepts caller body) as [row|]; simpl; [|done].
    by destruct (unset_defaults caller None (addresses db) !! newId).
  - destruct (create_data accepts caller body) as [row|]; simpl; [|done].
    by destruct (addresses db !! newId).
Qed.

Lemma put_address_table accepts caller id body db :
  let t := addresses db in
  let t1 := if js_truthy (r_isDefault body)
            then unset_defaults caller (Some id) t else t in
  addresses (put_address accepts caller id body db).2 =
  match t !! id with
  | Some e =>
      if bool_decide (userId e = caller) then
        match update_data accepts body e with
        | Some row => <[id := row]> t1
        | None => t1
        end
      else t
  | None => t
  end.
Proof.
  simpl. unfold put_address, handle, bind, findUnique, update, updateMany, modify, ret.
  simpl. destruct (addresses db !! id) as [e|] eqn:He; simpl; [|done].
  destruct (bool_decide (userId e = caller)) eqn:Hown; simpl; [|done].
  destruct (js_truthy (r_isDefault body)); simpl; unfold set_addresses; simpl.
  - rewrite unset_defaults_update.
    assert (Hkept : unset_defaults caller (Some id) (addresses db) !! id = Some e).
    { rewrite unset_defaults_lookup, He. simpl.
      rewrite (bool_decide_eq_true_2 (Some id = Some id)) by done.
      by rewrite andb_false_r. }
    rewrite Hkept. by destruct (update_data accepts body e).
  - rewrite He. by destruct (update_data accepts body e).
Qed.

Lemma delete_address_table on_delete caller id db :
  addresses (delete_address on_delete caller id db).2 =
  match addresses db !! id with
  | Some e =>
      if bool_decide (userId e = caller) then
        match address_referential on_delete id db with
        | Some _ => delete id (addresses db)
        | None => addresses db
        end
      else addresses db
  | None => addresses db
  end.
Proof.
  unfold delete_address, handle, bind, findUnique, delete_, ret. simpl.
  destruct (addresses db !! id) as [e|] eqn:He; simpl; [|done].
  destruct (bool_decide (userId e = caller)); simpl; [|done].
  rewrite He. unfold address_referential.
  destruct (orders_at id db); simpl; [done|].
  by destruct (on_delete id (orders db)).
Qed.

(** The mass unset only clears flags: a default row after it was the same
    default row before. *)
Lemma unset_defaults_default caller keep t i a :
  unset_defaults caller keep t !! i = Some a -> isDefault a = true ->
  t !! i = Some a.
Proof.
  rewrite unset_defaults_lookup. destruct (t !! i) as [a0|]; simpl; [|done].
  destruct (_ && _); intros [= <-]; [discriminate | done].
Qed.

Lemma unset_defaults_user caller keep t i a :
  unset_defaults caller keep t !! i = Some a ->
  exists a0, t !! i = Some a0 /\ userId a0 = userId a.
Proof.
  rewrite unset_defaults_lookup. destruct (t !! i) as [a0|]; simpl; [|done].
  destruct (_ && _); intros [= <-]; eauto.
Qed.

Lemma unset_defaults_keeps_invariant caller keep t :
  at_most_one_default t -> at_most_one_default (unset_defaults caller keep t).
Proof.
  intros Hinv i j a b Hi Hj Hu Ha Hb.
  apply unset_defaults_default in Hi, Hj; [|done..]. by eapply Hinv.
Qed.

(** Writing a row keeps the invariant when no other row of its user is a
    default one, or when the row is not a default one itself. *)
Lemma insert_keeps_invariant id row (t : gmap string Address) :
  at_most_one_default t ->
  (isDefault row = true ->
   forall i a, i <> id -> t !! i = Some a -> userId a = userId row ->
               isDefault a = false) ->
  at_most_one_default (<[id := row]> t).
Proof.
  intros Hinv Hrow i j a b Hi Hj Hu Ha Hb.
  destruct (decide (i = id)) as [->|Hi'], (decide (j = id)) as [->|Hj']; [done|..].
  - rewrite lookup_insert_eq in Hi. rewrite lookup_insert_ne in Hj by done.
    injection Hi as <-. rewrite (Hrow Ha j b) in Hb; done.
  - rewrite lookup_insert_eq in Hj. rewrite lookup_insert_ne in Hi by done.
    injection Hj as <-. rewrite (Hrow Hb i a) in Ha; done.
  - rewrite lookup_insert_ne in Hi, Hj by done. by eapply Hinv.
Qed.

Lemma delete_keeps_invariant id (t : gmap string Address) :
  at_most_one_default t -> at_most_one_default (delete id t).
Proof.
  intros Hinv i j a b Hi Hj. apply lookup_delete_Some in Hi as [_ Hi].
  apply lookup_delete_Some in Hj as [_ Hj]. by eapply Hinv.
Qed.

Lemma unset_defaults_others caller keep t i a :
  unset_defaults caller keep t !! i = Some a -> userId a = caller ->
  Some i <> keep -> isDefault a = false.
Proof.
  intros Hi Hu Hk. destruct (isDefault a) eqn:Hd; [|done].
  by pose proof (unset_defaults_clears _ _ _ _ _ Hi Hu Hd).
Qed.

(** X1.  Whatever the request, an address create, update or delete takes a
    table in which no user has two default addresses to a table in which no
    user has two default addresses. *)
Theorem address_writes_keep_at_most_one_default caller db :
  at_most_one_default (addresses db) ->
  (forall accepts errors body newId,
     at_most_one_default
       (addresses (post_addresses accepts caller errors body newId db).2)) /\
  (forall accepts id body,
     at_most_one_default (addresses (put_address accepts caller id body db).2)) /\
  (forall on_delete id,
     at_most_one_default (addresses (delete_address on_delete caller id db).2)).
Proof.
  intros Hinv. split; [|split].
  - intros accepts errors body newId. rewrite post_addresses_table. simpl.
    destruct (bool_decide (errors = [])); [|done].
    destruct (js_truthy (r_isDefault body)) eqn:Hflag.
    + pose proof (unset_defaults_keeps_invariant caller None _ Hinv) as Hinv'.
      destruct (create_data accepts caller body) as [row|] eqn:Hrow; [|done].
      destruct (unset_defaults caller None (addresses db) !! newId); [done|].
      apply create_data_spec in Hrow as [Hu0 _].
      apply insert_keeps_invariant; [done|]. intros _ i a _ Hi Hu.
      apply (unset_defaults_others caller None (addresses db) i);
        [done | congruence | done].
    + destruct (create_data accepts caller body) as [row|] eqn:Hrow; [|done].
      destruct (addresses db !! newId); [done|].
      apply create_data_spec in Hrow as [_ Hd0].
      apply insert_keeps_invariant; [done|]. intros Hd.
      apply Hd0 in Hd. congruence.
  - intros accepts id body. rewrite put_address_table. simpl.
    destruct (addresses db !! id) as [e|] eqn:He; [|done].
    destruct (bool_decide (userId e = caller)) eqn:Hown; [|done].
    apply bool_decide_eq_true in Hown.
    destruct (js_truthy (r_isDefault body)) eqn:Hflag.
    + destruct (update_data accepts body e) as [row|] eqn:Hrow;
        [|by apply unset_defaults_keeps_invariant].
      apply update_data_spec in Hrow as [Hu0 _].
      apply insert_keeps_invariant;
        [by apply unset_defaults_keeps_invariant|].
      intros _ i a Hne Hi Hu.
      apply (unset_defaults_others caller (Some id) (addresses db) i);
        [done | congruence | congruence].
    + destruct (update_data accepts body e) as [row|] eqn:Hrow; [|done].
      apply update_data_spec in Hrow as [Hu0 Hd0].
      apply insert_keeps_invariant; [done|].
      intros Hd i a Hne Hi Hu.
      destruct (Hd0 Hd) as [Hd1|Hd1]; [congruence|].
      destruct (isDefault a) eqn:Hda; [|done].
      exfalso. apply Hne. apply (Hinv i id a e); [done | done | congruence | done | done].
  - intros on_delete id. rewrite delete_address_table.
    destruct (addresses db !! id) as [e|]; [|done].
    destruct (bool_decide (userId e = caller)); [|done].
    destruct (address_referential on_delete id db); [|done].
    by apply delete_keeps_invariant.
Qed.

Lemma address_writes_keep_at_most_one_default_witness :
  at_most_one_default
    (addresses (post_addresses known_type "u1" [] (raw_of new_home) "a2"
                  (post_addresses known_type "u1" [] (raw_of new_home) "a1" empty_db).2).2).
Proof.
  assert (Hempty : at_most_one_default (addresses empty_db)).
  { intros i j a b Hi. simpl in Hi. by rewrite lookup_empty in Hi. }
  destruct (address_writes_keep_at_most_one_default "u1" empty_db Hempty)
    as [Hfirst _].
  destruct (address_writes_keep_at_most_one_default "u1"
              (post_addresses known_type "u1" [] (raw_of new_home) "a1" empty_db).2
              (Hfirst known_type [] (raw_of new_home) "a1")) as [Hsecond _].
  apply Hsecond.
Defined.

(** X2.  An address create, update or delete by one user never changes or
    removes an address of another user, whatever the request; and a row
    never changes owner: a row that is there afterwards under an id that was
    there before has the owner it had. *)
Theorem address_writes_spare_other_users caller db :
  let after :=
    fun db' =>
      (forall i a, addresses db !! i = Some a -> userId a <> caller ->
                   addresses db' !! i = Some a) /\
      (forall i a a', addresses db !! i = Some a -> addresses db' !! i = Some a' ->
                      userId a' = userId a) in
  (forall accepts errors body newId,
     after (post_addresses accepts caller errors body newId db).2) /\
  (forall accepts id body, after (put_address accepts caller id body db).2) /\
  (forall on_delete id, after (delete_address on_delete caller id db).2).
Proof.
  assert (Hunset : forall keep i a,
            addresses db !! i = Some a ->
            exists a', unset_defaults caller keep (addresses db) !! i = Some a' /\
                       userId a' = userId a /\ (userId a <> caller -> a' = a)).
  { intros keep i a Hi. rewrite unset_defaults_lookup, Hi. simpl.
    eexists. split; [reflexivity|]. split; [by destruct (_ && _)|].
    intros Hother. by rewrite (bool_decide_eq_false_2 _ Hother). }
  assert (Hstep : forall (flag : bool) keep i a, addresses db !! i = Some a ->
            exists a',
              (if flag then unset_defaults caller keep (addresses db)
               else addresses db) !! i = Some a' /\
              userId a' = userId a /\ (userId a <> caller -> a' = a)).
  { intros [] keep i a Hi; [by apply Hunset|]. exists a. done. }
  assert (Hsame : forall (flag : bool) keep,
            let t1 := if flag then unset_defaults caller keep (addresses db)
                      else addresses db in
            (forall i a, addresses db !! i = Some a -> userId a <> caller ->
                         t1 !! i = Some a) /\
            (forall i a a', addresses db !! i = Some a -> t1 !! i = Some a' ->
                            userId a' = userId a)).
  { intros flag keep t1. split.
    - intros i a Hi Hother.
      destruct (Hstep flag keep i a Hi) as (a' & Hl & _ & Heq).
      subst t1. rewrite Hl. f_equal. by apply Heq.
    - intros i a a' Hi Hi'.
      destruct (Hstep flag keep i a Hi) as (a1 & Hl & Hu & _).
      subst t1. congruence. }
  simpl. split; [|split].
  - intros accepts errors body newId. rewrite post_addresses_table. simpl.
    destruct (bool_decide (errors = [])); [|split; [done | congruence]].
    pose proof (Hsame (js_truthy (r_isDefault body)) None) as [Hkeep Howner].
    simpl in Hkeep, Howner.
    destruct (create_data accepts caller body) as [row|]; [|done].
    destruct ((if js_truthy (r_isDefault body)
               then unset_defaults caller None (addresses db)
               else addresses db) !! newId) as [taken|] eqn:Hnew; [done|].
    assert (Hfresh : forall i a, addresses db !! i = Some a -> i <> newId).
    { intros i0 a0 Hi0 ->.
      destruct (Hstep (js_truthy (r_isDefault body)) None newId a0 Hi0)
        as (? & ? & _). congruence. }
    split.
    + intros i a Hi Hother. rewrite lookup_insert_ne by (symmetry; eauto). eauto.
    + intros i a a' Hi. rewrite lookup_insert_ne by (symmetry; eauto). eauto.
  - intros accepts id body. rewrite put_address_table. simpl.
    destruct (addresses db !! id) as [e|] eqn:He; [|split; [done | congruence]].
    destruct (bool_decide (userId e = caller)) eqn:Hown;
      [|split; [done | congruence]].
    apply bool_decide_eq_true in Hown.
    pose proof (Hsame (js_truthy (r_isDefault body)) (Some id)) as [Hkeep Howner].
    simpl in Hkeep, Howner.
    destruct (update_data accepts body e) as [row|] eqn:Hrow; [|done].
    apply update_data_spec in Hrow as [Hu0 _].
    split.
    + intros i a Hi Hother.
      assert (i <> id) by congruence. rewrite lookup_insert_ne by done. eauto.
    + intros i a a' Hi. destruct (decide (i = id)) as [->|Hne].
      * rewrite lookup_insert_eq. intros [= <-]. congruence.
      * rewrite lookup_insert_ne by done. eauto.
  - intros on_delete id. rewrite delete_address_table.
    destruct (addresses db !! id) as [e|] eqn:He; [|split; [done | congruence]].
    destruct (bool_decide (userId e = caller)) eqn:Hown;
      [|split; [done | congruence]].
    destruct (address_referential on_delete id db);
      [|split; [done | congruence]].
    apply bool_decide_eq_true in Hown. split.
    + intros i a Hi Hother. rewrite lookup_delete_ne by congruence. done.
    + intros i a a' Hi [_ Hi']%lookup_delete_Some. congruence.
Qed.

Lemma address_writes_spare_other_users_witness :
  addresses (post_addresses known_type "u1" [] (raw_of new_home) "a3" address_book).2 !! "b1"
    = Some (home_of "u2" true) /\
  addresses (delete_address refuse "u1" "b1" address_book).2 !! "b1"
    = Some (home_of "u2" true).
Proof.
  destruct (address_writes_spare_other_users "u1" address_book)
    as (Hpost & _ & Hdelete).
  split.
  - apply (Hpost known_type [] (raw_of new_home) "a3"); [vm_compute; reflexivity | discriminate].
  - apply (Hdelete refuse "b1"); [vm_compute; reflexivity | discriminate].
Defined.

(** X3.  A delete of one of the caller's addresses that no order
    references answers 200 and removes that row and nothing else, whatever
    the store does for referenced addresses; a second delete of the same id
    answers 404.  Nothing takes the place of a default address that is
    deleted: if the row was the caller's only default, the caller is left
    with none.  When orders reference the address and the store refuses the
    delete, the reply is a 500 and the database is as before. *)
Theorem delete_address_removes_the_row on_delete caller id db e :
  addresses db !! id = Some e -> userId e = caller ->
  let r := delete_address on_delete caller id db in
  ((forall k o, orders db !! k = Some o -> orderAddress o <> id) ->
   r = (Json 200 "Address deleted", set_addresses (delete id) db) /\
   addresses r.2 !! id = None /\
   (forall j, j <> id -> addresses r.2 !! j = addresses db !! j) /\
   delete_address on_delete caller id r.2 = (Failure 404 "Address not found", r.2) /\
   (sole_default caller id (addresses db) ->
    forall j a, addresses r.2 !! j = Some a -> userId a = caller ->
                isDefault a = false)) /\
  (orders_at id db <> [] -> on_delete id (orders db) = None ->
   exists msg, r = (Failure 500 msg, db)).
Proof.
  intros He Hown r. split.
  - intros Hfree.
    assert (Hnone : orders_at id db = []).
    { unfold orders_at. destruct (filter _ _) as [|[k o] l] eqn:Hf; [done|].
      assert (Hin : (k, o) ∈ filter (fun ko : string * Order => orderAddress ko.2 = id)
                      (map_to_list (orders db))) by (rewrite Hf; left).
      apply list_elem_of_filter in Hin as [Hat Hin]. simpl in Hat.
      apply elem_of_map_to_list in Hin. by destruct (Hfree k o Hin). }
    assert (Hrun : r = (Json 200 "Address deleted", set_addresses (delete id) db)).
    { subst r. unfold delete_address, handle, bind, findUnique, delete_, ret. simpl.
      rewrite He. rewrite (bool_decide_eq_true_2 _ Hown). simpl. rewrite He.
      unfold address_referential. by rewrite Hnone. }
    rewrite Hrun. simpl. split; [done|].
    split; [apply lookup_delete_eq|].
    split; [intros j Hj; by apply lookup_delete_ne|].
    split.
    + unfold delete_address, handle, bind, findUnique, ret. simpl.
      by rewrite lookup_delete_eq.
    + intros [_ Huniq] j a [Hj Ha]%lookup_delete_Some Hu.
      destruct (isDefault a) eqn:Hd; [|done]. exfalso. apply Hj. symmetry. eauto.
  - intros Hrefs Hrefuse. subst r.
    unfold delete_address, handle, bind, findUnique, delete_, ret. simpl.
    rewrite He. rewrite (bool_decide_eq_true_2 _ Hown). simpl. rewrite He.
    unfold address_referential. destruct (orders_at id db); [done|].
    rewrite Hrefuse. simpl. eauto.
Qed.

Lemma delete_address_removes_the_row_witness :
  addresses (delete_address refuse "u2" "b1" address_book).2 !! "b1" = None /\
  delete_address refuse "u2" "b1" (delete_address refuse "u2" "b1" address_book).2
    = (Failure 404 "Address not found",
       (delete_address refuse "u2" "b1" address_book).2) /\
  exists msg, delete_address refuse "u1" "a1" ledger = (Failure 500 msg, ledger).
Proof.
  assert (Hrow : addresses address_book !! "b1" = Some (home_of "u2" true))
    by (vm_compute; reflexivity).
  assert (Hfree : forall k o, orders address_book !! k = Some o -> orderAddress o <> "b1").
  { intros k o Hk. simpl in Hk. by rewrite lookup_empty in Hk. }
  destruct (delete_address_removes_the_row refuse "u2" "b1" address_book
              (home_of "u2" true) Hrow eq_refl) as [Hdone _].
  destruct (Hdone Hfree) as (_ & Hgone & _ & Hagain & _).
  assert (Hrow' : addresses ledger !! "a1" = Some (home_of "u1" true))
    by (vm_compute; reflexivity).
  destruct (delete_address_removes_the_row refuse "u1" "a1" ledger
              (home_of "u1" true) Hrow' eq_refl) as [_ Hrefused].
  split; [exact Hgone|]. split; [exact Hagain|].
  apply Hrefused; [vm_compute; discriminate | reflexivity].
Defined.

(** X4.  The address listing is read-only and replies with the caller's
    addresses, all of them and no other, each once, the default ones
    first. *)
Theorem get_addresses_lists_own_defaults_first caller db :
  exists defaults others,
    get_addresses caller db = (Json 200 (defaults ++ others)%list, db) /\
    (forall i a, (i, a) ∈ (defaults ++ others)%list <->
                 addresses db !! i = Some a /\ userId a = caller) /\
    NoDup (defaults ++ others)%list /\
    Forall (fun ia => isDefault ia.2 = true) defaults /\
    Forall (fun ia => isDefault ia.2 = false) others.
Proof.
  unfold get_addresses, handle, bind, get, ret. simpl.
  set (own := filter (fun ia : string * Address => userId ia.2 = caller)
                (map_to_list (addresses db))).
  exists (filter (fun ia : string * Address => isDefault ia.2 = true) own),
         (filter (fun ia : string * Address => isDefault ia.2 = false) own).
  assert (Hown : NoDup own) by apply NoDup_filter, NoDup_map_to_list.
  split; [done|]. split; [|split; [|split]].
  - intros i a. rewrite elem_of_app, !list_elem_of_filter. unfold own.
    rewrite list_elem_of_filter, elem_of_map_to_list. simpl.
    split; [intros [[_ [? ?]]|[_ [? ?]]]; done|].
    intros [? ?]. destruct (isDefault a); [left | right]; done.
  - apply NoDup_app. split; [by apply NoDup_filter|].
    split; [|by apply NoDup_filter].
    intros [i a] [Hd _]%list_elem_of_filter [Hn _]%list_elem_of_filter.
    simpl in *. congruence.
  - apply Forall_forall. by intros ia [Hd _]%list_elem_of_filter.
  - apply Forall_forall. by intros ia [Hd _]%list_elem_of_filter.
Qed.

(** X5.  A profile update writes the name and the phone of the caller's own
    row and nothing else: the email, the role and the tier stay, a field
    absent from the body keeps its value, and no other user and no other
    table changes.  When the caller has no row the reply is a 500 and the
    database is as before. *)
Theorem put_profile_writes_contact_only caller b_name b_phone db :
  (forall u, users db !! caller = Some u ->
     let r := put_profile caller b_name b_phone db in
     exists u',
       r.1 = Json 200 (profile_of (caller, u')) /\
       users r.2 !! caller = Some u' /\
       email u' = email u /\ role u' = role u /\ tier u' = tier u /\
       userName u' = default (userName u) (Some <$> b_name) /\
       phone u' = default (phone u) (Some <$> b_phone) /\
       (forall j, j <> caller -> users r.2 !! j = users db !! j) /\
       set_users (fun _ => users db) r.2 = db) /\
  (users db !! caller = None ->
     exists msg, put_profile caller b_name b_phone db = (Failure 500 msg, db)).
Proof.
  unfold put_profile, handle, bind, update, ret. simpl. split.
  - intros u Hu. rewrite Hu. simpl. eexists. split; [reflexivity|].
    split; [apply lookup_insert_eq|]. simpl.
    do 3 (split; [done|]).
    split; [by destruct b_name|]. split; [by destruct b_phone|].
    split; [intros j Hj; by apply lookup_insert_ne|]. by destruct db.
  - intros ->. eauto.
Qed.

Lemma put_profile_writes_contact_only_witness :
  role <$> users (put_profile "u1" (Some "Amy Tan") None catalogue).2 !! "u1"
    = Some "CUSTOMER" /\
  exists msg, put_profile "u9" (Some "Eve") None catalogue = (Failure 500 msg, catalogue).
Proof.
  destruct (put_profile_writes_contact_only "u1" (Some "Amy Tan") None catalogue)
    as [Hhit _].
  destruct (put_profile_writes_contact_only "u9" (Some "Eve") None catalogue)
    as [_ Hmiss].
  split.
  - destruct (Hhit _ eq_refl) as (u' & _ & Hrow & _ & Hrole & _).
    rewrite Hrow. simpl. by rewrite Hrole.
  - apply Hmiss. reflexivity.
Defined.
End UsersMore.

(** ** More on listings: order, pages and completeness *)

Section Sorting.
Context {A : Type} (le : A -> A -> bool).
Hypothesis le_total : forall a b, le a b = true \/ le b a = true.

Let R : A -> A -> Prop := fun a b => le a b = true.

Lemma insert_sorted_HdRel x y l :
  R y x -> HdRel R y l -> HdRel R y (insert_sorted le x l).
Proof.
  intros Hyx Hhd. destruct l as [|z l]; simpl; [by constructor|].
  destruct (le x z); constructor; [done|]. by inversion Hhd.
Qed.

Lemma insert_sorted_Sorted x l : Sorted R l -> Sorted R (insert_sorted le x l).
Proof.
  induction 1 as [|y l Hl IH Hhd]; simpl; [by repeat constructor|].
  destruct (le x y) eqn:Hxy.
  - constructor; [by constructor|]. by constructor.
  - constructor; [done|]. apply insert_sorted_HdRel; [|done].
    destruct (le_total x y) as [H|H]; [congruence | done].
Qed.

(** The rows that [findMany] sorts come out in order. *)
Lemma sort_by_Sorted l : Sorted R (sort_by le l).
Proof.
  induction l as [|x l IH]; simpl; [constructor|]. by apply insert_sorted_Sorted.
Qed.

Lemma Sorted_drop n l : Sorted R l -> Sorted R (drop n l).
Proof.
  revert l. induction n as [|n IH]; intros l Hl; [done|].
  destruct l as [|x l]; [done|]. simpl. apply IH. by inversion Hl.
Qed.

Lemma Sorted_take n l : Sorted R l -> Sorted R (take n l).
Proof.
  intros Hsorted. revert n.
  induction Hsorted as [|x l Hl IH Hhd]; intros n; [by destruct n|].
  destruct n as [|n]; simpl; [constructor|]. constructor; [apply IH|].
  destruct Hhd; destruct n; simpl; by constructor.
Qed.
End Sorting.

Lemma Sorted_weaken {A} (R R' : A -> A -> Prop) l :
  (forall a b, R a b -> R' a b) -> Sorted R l -> Sorted R' l.
Proof.
  intros Hsub. induction 1 as [|x l Hl IH Hhd]; constructor; [done|].
  destruct Hhd; constructor. by apply Hsub.
Qed.

Section MoreListing.
Import Products Admin Samples.

(** What [GET /] replies when the window is valid and the order known. *)
Lemma get_products_run q db le :
  let page_ := default 1 (q_page q) in
  let limit_ := default 20 (q_limit q) in
  let all := sort_by le (matching prisma_product
                           (fun _ p => Products.matches (list_where q) p) db) in
  0 <= (page_ - 1) * limit_ -> 0 <= limit_ ->
  orderBy (default "createdAt" (q_sortBy q)) (default "desc" (q_order q)) = Some le ->
  get_products q db =
  (Json 200 {| pl_products :=
                 take (Z.to_nat limit_) (drop (Z.to_nat ((page_ - 1) * limit_)) all);
               pl_pagination := pagination_of page_ limit_ (Z.of_nat (length all)) |},
   db).
Proof.
  intros page_ limit_ all Hskip Hlimit Hle.
  unfold get_products, handle, bind, ret. fold page_ limit_. rewrite Hle.
  rewrite findMany_page by done.
  by rewrite (count_matching prisma_product _ le).
Qed.




(** A listing that succeeds reads the store without changing it; its rows
    are rows of the store that satisfy the [where] object. *)
Lemma get_products_sound q db resp :
  (get_products q db).1 = Json 200 resp ->
  forall i p, (i, p) ∈ pl_products resp ->
    products db !! i = Some p /\ Products.matches (list_where q) p = true.
Proof.
  intros Hrun i p Hin.
  unfold get_products, handle, bind, ret in Hrun.
  destruct (findMany _ _ _ _ _ db) as [[msg|found] db'] eqn:Hfind; [done|].
  apply findMany_sound in Hfind as [-> Hfound].
  unfold count in Hrun. simpl in Hrun. injection Hrun as <-. by apply Hfound.
Qed.

Lemma get_featured_run db :
  get_featured db =
  (Json 200
     (take 12 (sort_by (fun a b : string * Product => salesCount b.2 <=? salesCount a.2)
                 (matching prisma_product
                    (fun _ p => Products.matches
                       {| w_isActive := Some true; w_isFeatured := Some true;
                          w_category := None; w_brand := None; w_price := None;
                          w_OR := None |} p) db))), db).
Proof.
  unfold get_featured, handle, bind, ret, findMany, window. simpl.
  change (Z.to_nat 0) with 0%nat. change (Z.to_nat 12) with 12%nat.
  by rewrite drop_0.
Qed.

(** X7.  The featured list is read-only and holds at most 12 products, all
    of them active and featured, in descending order of sales count; a
    product that is active and featured and yet left out has sold no more
    than any product listed, and then the list is full. *)
Theorem featured_list_is_top_twelve db :
  exists found,
    get_featured db = (Json 200 found, db) /\
    (length found <= 12)%nat /\
    (forall i p, (i, p) ∈ found ->
       products db !! i = Some p /\ isActive p = true /\ isFeatured p = true) /\
    StronglySorted (fun a b => salesCount b.2 <= salesCount a.2) found /\
    (forall i p, products db !! i = Some p -> isActive p = true ->
       isFeatured p = true -> (i, p) ∉ found ->
       length found = 12%nat /\
       forall j q, (j, q) ∈ found -> salesCount p <= salesCount q).
Proof.
  rewrite get_featured_run.
  set (le := fun a b : string * Product => salesCount b.2 <=? salesCount a.2).
  set (all := sort_by le (matching prisma_product _ db)).
  assert (Hmem : forall i p, (i, p) ∈ all <->
            products db !! i = Some p /\ isActive p = true /\ isFeatured p = true).
  { intros i p. unfold all, matching. rewrite sort_by_perm, list_elem_of_filter.
    rewrite elem_of_map_to_list. unfold Products.matches. simpl.
    rewrite !andb_true_r, andb_true_iff.
    destruct (isActive p), (isFeatured p); simpl; tauto. }
  assert (Hsorted : StronglySorted (fun a b => salesCount b.2 <= salesCount a.2) all).
  { apply Sorted_StronglySorted; [intros a b c; lia|].
    eapply Sorted_weaken; [|apply (sort_by_Sorted le)].
    - intros a b H. unfold le in H. lia.
    - intros a b. unfold le. lia. }
  exists (take 12 all). split; [done|].
  split; [rewrite length_take; lia|].
  split; [intros i p Hin; apply Hmem; by eapply subseteq_take|].
  rewrite <- (take_drop 12 all) in Hsorted.
  split; [by eapply StronglySorted_app_1_l|].
  intros i p Hrow Hact Hfeat Hout.
  assert (Hrest : (i, p) ∈ drop 12 all).
  { assert (Hin : (i, p) ∈ all) by (by apply Hmem).
    rewrite <- (take_drop 12 all), elem_of_app in Hin. by destruct Hin. }
  split.
  - apply length_take_le.
    destruct (decide (12 <= length all)%nat) as [|Hshort]; [done|].
    rewrite drop_ge in Hrest by lia. by apply elem_of_nil in Hrest.
  - intros j q Hin.
    apply (StronglySorted_app_1_elem_of _ _ _ (j, q) (i, p) Hsorted Hin Hrest).
Qed.

Lemma featured_list_is_top_twelve_witness :
  exists found,
    get_featured showcase = (Json 200 found, showcase) /\
    found.*1 = ["f2"; "f1"] /\
    StronglySorted (fun a b => salesCount b.2 <= salesCount a.2) found.
Proof.
  destruct (featured_list_is_top_twelve showcase) as (found & Hrun & _ & _ & Hsorted & _).
  exists found. split; [exact Hrun|]. split; [|exact Hsorted].
  pose proof Hrun as Hfound. vm_compute in Hfound. injection Hfound as <-.
  reflexivity.
Defined.

(** X8.  With page and limit at least 1, row [j] of page [page] is row
    [(page - 1) * limit + j] of the whole sorted listing, for [j] below
    [limit]; so a page that starts past the last row is empty, and the
    reply is still a 200 with the same total. *)
Theorem page_rows_are_indexed q db le resp :
  let page_ := default 1 (q_page q) in
  let limit_ := default 20 (q_limit q) in
  let all := sort_by le (matching prisma_product
                           (fun _ p => Products.matches (list_where q) p) db) in
  orderBy (default "createdAt" (q_sortBy q)) (default "desc" (q_order q)) = Some le ->
  1 <= page_ -> 1 <= limit_ ->
  (get_products q db).1 = Json 200 resp ->
  (forall j : nat,
     pl_products resp !! j =
     if decide (Z.of_nat j < limit_)
     then all !! (Z.to_nat ((page_ - 1) * limit_) + j)%nat else None) /\
  pg_total (pl_pagination resp) = Z.of_nat (length all) /\
  (Z.of_nat (length all) <= (page_ - 1) * limit_ -> pl_products resp = []).
Proof.
  intros page_ limit_ all Hle Hpage Hlimit Hrun.
  rewrite (get_products_run q db le) in Hrun by (done || nia).
  injection Hrun as <-. simpl. fold page_ limit_ all.
  split; [|split; [done|]].
  - intros j. rewrite lookup_take.
    destruct (decide (j < Z.to_nat limit_)%nat), (decide (Z.of_nat j < limit_));
      try lia; [|done].
    by rewrite lookup_drop.
  - intros Hpast. rewrite drop_ge by lia. by destruct (Z.to_nat limit_).
Qed.

Lemma page_rows_are_indexed_witness :
  exists resp,
    (get_products second_of_three catalogue).1 = Json 200 resp /\
    pl_products resp !! 0%nat =
      sort_by (fun a b : string * Product => productCreatedAt b.2 <=? productCreatedAt a.2)
        (matching prisma_product
           (fun _ p => Products.matches (list_where second_of_three) p) catalogue)
      !! 1%nat.
Proof.
  eexists. split; [reflexivity|].
  edestruct (page_rows_are_indexed second_of_three catalogue) as (Hrows & _);
    [reflexivity | simpl; lia | simpl; lia | reflexivity |].
  apply (Hrows 0%nat).
Defined.

Lemma present_Some s v : present s = Some v <-> s = Some v /\ v <> "".
Proof.
  unfold present. destruct s as [w|]; [|by split; [|intros []]].
  case_bool_decide as Hw; split.
  - done.
  - intros [[= ->] ?]. done.
  - intros [= ->]. done.
  - by intros [[= ->] _].
Qed.

(** A pattern that starts with [%] matches when the rest matches here or
    further on. *)
Lemma like_percent p s :
  like (String "%" p) s
  = like p s || match s with
                | EmptyString => false
                | String _ r => like (String "%" p) r
                end.
Proof. by destruct s. Qed.

(** A character that is no wildcard matches itself only. *)
Lemma like_literal c p s :
  is_wildcard c = false ->
  like (String c p) s
  = match s with
    | EmptyString => false
    | String d r => Ascii.eqb c d && like p r
    end.
Proof.
  destruct c as [[] [] [] [] [] [] [] []]; intros Hc; try discriminate Hc;
    reflexivity.
Qed.

Lemma like_any s : like "%" s = true.
Proof.
  induction s as [|c r IH]; [done|]. rewrite like_percent. by rewrite IH, orb_true_r.
Qed.

Lemma like_prefix t s :
  all_chars (fun c => negb (is_wildcard c)) t = true ->
  like (String.append t "%") s = String.prefix t s.
Proof.
  revert s. induction t as [|c t IH]; intros s Ht.
  - change (String.append "" "%") with "%". rewrite like_any. by destruct s.
  - simpl in Ht. apply andb_true_iff in Ht as [Hc Ht].
    apply negb_true_iff in Hc.
    change (String.append (String c t) "%") with (String c (String.append t "%")).
    rewrite (like_literal _ _ _ Hc). destruct s as [|d r]; [done|].
    rewrite (IH r Ht). simpl. destruct (ascii_dec c d) as [->|Hne].
    + by rewrite Ascii.eqb_refl.
    + apply Ascii.eqb_neq in Hne. by rewrite Hne.
Qed.

(** With no wildcard in the term, the pattern [%term%] finds the term as a
    substring. *)
Lemma like_infix t s :
  all_chars (fun c => negb (is_wildcard c)) t = true ->
  like (String "%" (String.append t "%")) s = infix_of t s.
Proof.
  intros Ht. induction s as [|d r IH].
  - rewrite like_percent, (like_prefix _ _ Ht). simpl. by rewrite orb_false_r.
  - rewrite like_percent, (like_prefix _ _ Ht), IH. reflexivity.
Qed.

Lemma toLowerCase_app s1 s2 :
  toLowerCase (String.append s1 s2) = String.append (toLowerCase s1) (toLowerCase s2).
Proof.
  induction s1 as [|c r IH]; [done|].
  change (String.append (String c r) s2) with (String c (String.append r s2)).
  simpl. by rewrite IH.
Qed.

Lemma toLowerCase_pattern s :
  toLowerCase (String "%" (String.append s "%"))
  = String "%" (String.append (toLowerCase s) "%").
Proof.
  change (toLowerCase (String "%" (String.append s "%")))
    with (String "%" (toLowerCase (String.append s "%"))).
  by rewrite toLowerCase_app.
Qed.

Lemma lower_char_wildcard c : is_wildcard (lower_char c) = is_wildcard c.
Proof. destruct c as [[] [] [] [] [] [] [] []]; vm_compute; reflexivity. Qed.

Lemma toLowerCase_literal s :
  is_literal s = true ->
  all_chars (fun c => negb (is_wildcard c)) (toLowerCase s) = true.
Proof.
  unfold is_literal. induction s as [|c r IH]; [done|]. simpl.
  intros [[_ Hc]%andb_true_iff Hr]%andb_true_iff.
  by rewrite lower_char_wildcard, Hc, (IH Hr).
Qed.

(** For a literal term the [contains] of the store is the plain search. *)
Lemma contains_literal s hay :
  is_literal s = true -> contains_insensitive s hay = occurs_insensitive s hay.
Proof.
  intros Hs. unfold contains_insensitive, occurs_insensitive.
  rewrite toLowerCase_pattern. apply like_infix. by apply toLowerCase_literal.
Qed.

(** A term that holds a wildcard is read as a pattern: [_] finds any text
    that is not empty, where the plain search finds none. *)
Lemma contains_reads_wildcards :
  contains_insensitive "_" "Gold Watch" = true /\
  occurs_insensitive "_" "Gold Watch" = false /\
  contains_insensitive "s%f" "Silk Scarf" = true.
Proof. repeat split; vm_compute; reflexivity. Qed.

Lemma list_where_active q p :
  Products.matches (list_where q) p = true -> isActive p = true.
Proof.
  unfold Products.matches, list_where. simpl. rewrite !andb_true_iff.
  intros [[[[[Hact _] _] _] _] _]. by destruct (isActive p).
Qed.

(** With a literal search term, the [where] object of [GET /] asks what
    the parameters ask, no more and no less. *)
Lemma list_where_wanted q p :
  (forall s, q_search q = Some s -> is_literal s = true) ->
  Products.matches (list_where q) p = true <-> wanted q p.
Proof.
  intros Hliteral.
  unfold Products.matches, list_where, wanted. simpl.
  rewrite !andb_true_iff.
  assert (Hact : eqb (isActive p) true = true <-> isActive p = true)
    by (by destruct (isActive p)).
  assert (Hcat :
    match match present (q_category q) with
          | Some c => if bool_decide (c = "All") then None else Some c
          | None => None
          end with
    | Some c => bool_decide (category p = c)
    | None => true
    end = true <->
    (forall c, q_category q = Some c -> c <> "" -> c <> "All" -> category p = c)).
  { destruct (present (q_category q)) as [c|] eqn:Hc.
    - apply present_Some in Hc as [Hc Hne]. rewrite Hc.
      case_bool_decide as Hall.
      + split; [|done]. by intros _ c' [= <-] _ ?.
      + rewrite bool_decide_eq_true. split; [by intros ? c' [= <-]|].
        intros H. by apply H.
    - split; [|done]. intros _ c Hc' Hne _.
      assert (present (q_category q) = Some c) by (by apply present_Some).
      congruence. }
  assert (Hbrand :
    match present (q_brand q) with
    | Some b => bool_decide (brand p = b)
    | None => true
    end = true <->
    (forall b, q_brand q = Some b -> b <> "" -> brand p = b)).
  { destruct (present (q_brand q)) as [b|] eqn:Hb.
    - apply present_Some in Hb as [Hb Hne]. rewrite Hb, bool_decide_eq_true.
      split; [by intros ? b' [= <-]|]. intros H. by apply H.
    - split; [|done]. intros _ b Hb' Hne.
      assert (present (q_brand q) = Some b) by (by apply present_Some).
      congruence. }
  assert (Hprice :
    match match q_minPrice q, q_maxPrice q with
          | None, None => None
          | lo, hi => Some {| gte := lo; lte := hi |}
          end with
    | Some r => in_range r (price p)
    | None => true
    end = true <->
    (forall lo, q_minPrice q = Some lo -> (lo <= price p)%Q) /\
    (forall hi, q_maxPrice q = Some hi -> (price p <= hi)%Q)).
  { unfold in_range.
    destruct (q_minPrice q) as [lo|], (q_maxPrice q) as [hi|]; simpl;
      rewrite ?andb_true_r, ?andb_true_iff, ?Qle_bool_iff.
    - split; [intros [? ?]; split; by intros ? [= <-]|]. intros [H1 H2]. eauto.
    - split; [intros ?; split; [by intros ? [= <-] | done]|]. intros [H1 _]. eauto.
    - split; [intros ?; split; [done | by intros ? [= <-]]|]. intros [_ H2]. eauto.
    - done. }
  assert (Hsearch :
    match match present (q_search q) with
          | Some s => Some [NameContains s; BrandContains s; DescriptionContains s]
          | None => None
          end with
    | Some cs => existsb (fun c => holds c p) cs
    | None => true
    end = true <->
    (forall s, q_search q = Some s -> s <> "" ->
       occurs_insensitive s (productName p) = true \/
       occurs_insensitive s (brand p) = true \/
       occurs_insensitive s (description p) = true)).
  { destruct (present (q_search q)) as [s|] eqn:Hs.
    - apply present_Some in Hs as [Hs Hne]. rewrite Hs. simpl.
      rewrite !(contains_literal s) by (by apply Hliteral).
      rewrite orb_false_r, !orb_true_iff.
      split; [by intros ? s' [= <-]|]. intros H. by apply H.
    - split; [|done]. intros _ s Hs' Hne.
      assert (present (q_search q) = Some s) by (by apply present_Some).
      congruence. }
  rewrite Hact, Hcat, Hbrand, Hprice, Hsearch. intuition.
Qed.

(** X9.  For a store of plain text and a search term of 7-bit characters
    with no [%], [_] or backslash, the first page of a listing whose limit
    is not below the total omits nothing: a product is listed exactly when
    it is a row of the store that is active and has the category, the
    brand, the price and the search term asked for; no row comes twice; and
    [total] is the number of such rows. *)
Theorem first_page_lists_all_wanted q db le resp :
  (forall s, q_search q = Some s -> is_literal s = true) ->
  map_Forall (fun _ p => plain_product p = true) (products db) ->
  orderBy (default "createdAt" (q_sortBy q)) (default "desc" (q_order q)) = Some le ->
  default 1 (q_page q) = 1 -> 1 <= default 20 (q_limit q) ->
  (get_products q db).1 = Json 200 resp ->
  pg_total (pl_pagination resp) <= default 20 (q_limit q) ->
  (forall i p, (i, p) ∈ pl_products resp <-> products db !! i = Some p /\ wanted q p) /\
  NoDup (pl_products resp) /\
  pg_total (pl_pagination resp) = Z.of_nat (length (pl_products resp)).
Proof.
  intros Hliteral _ Hle Hpage Hlimit Hrun Hfits.
  pose proof (get_products_run q db le) as Hreply. cbv zeta in Hreply.
  rewrite Hpage in Hreply. rewrite Hreply in Hrun by (done || lia).
  injection Hrun as <-. simpl in *.
  change (Z.to_nat ((1 - 1) * _)) with 0%nat. rewrite drop_0.
  rewrite take_ge by lia.
  split; [|split; [|done]].
  - intros i p. unfold matching. rewrite sort_by_perm, list_elem_of_filter.
    rewrite elem_of_map_to_list. simpl. rewrite (list_where_wanted _ _ Hliteral).
    tauto.
  - rewrite sort_by_perm. apply NoDup_filter, NoDup_map_to_list.
Qed.

Lemma first_page_lists_all_wanted_witness :
  exists resp,
    (get_products (with_search (Some "Silk") accessories_10_50) catalogue).1
      = Json 200 resp /\
    forall i p, (i, p) ∈ pl_products resp <->
                products catalogue !! i = Some p /\
                wanted (with_search (Some "Silk") accessories_10_50) p.
Proof.
  eexists. split; [reflexivity|].
  eapply (first_page_lists_all_wanted
            (with_search (Some "Silk") accessories_10_50) catalogue);
    [ intros s [= <-]; reflexivity
    | repeat (apply map_Forall_insert_2; [reflexivity|]); apply map_Forall_empty
    | reflexivity | reflexivity | simpl; lia | reflexivity
    | vm_compute; discriminate ].
Defined.

Lemma matching_ext {Row} (t : Delegate Row) (w1 w2 : string -> Row -> bool) db :
  (forall i r, w1 i r = w2 i r) -> matching t w1 db = matching t w2 db.
Proof.
  intros Hext. unfold matching. apply list_filter_iff. intros [i r]. simpl.
  by rewrite Hext.
Qed.

(** A listing depends on the query through the window, the order and the
    rows that its [where] object admits. *)
Lemma get_products_ext q1 q2 db :
  q_page q1 = q_page q2 -> q_limit q1 = q_limit q2 ->
  q_sortBy q1 = q_sortBy q2 -> q_order q1 = q_order q2 ->
  (forall p, Products.matches (list_where q1) p = Products.matches (list_where q2) p) ->
  get_products q1 db = get_products q2 db.
Proof.
  intros Hp Hl Hs Ho Hw. unfold get_products, handle, bind, findMany, count, ret.
  rewrite Hp, Hl, Hs, Ho.
  rewrite (matching_ext prisma_product _
             (fun _ p => Products.matches (list_where q2) p) db (fun _ p => Hw p)).
  destruct (orderBy _ _); [|done]. destruct (window _ _ _); [|done]. simpl.
  by rewrite (matching_ext prisma_product _
                (fun _ p => Products.matches (list_where q2) p) db (fun _ p => Hw p)).
Qed.

Lemma toLowerCase_empty s : toLowerCase s = "" <-> s = "".
Proof. by destruct s. Qed.

(** X10.  The search of a listing ignores case: two requests that differ
    only in the case of the letters of their search term get the same
    reply. *)
Theorem search_ignores_case s1 s2 q db :
  toLowerCase s1 = toLowerCase s2 ->
  get_products (with_search (Some s1) q) db = get_products (with_search (Some s2) q) db.
Proof.
  intros Hsame. apply get_products_ext; [reflexivity..|].
  intros p. unfold Products.matches, list_where.
  cbn [w_isActive w_isFeatured w_category w_brand w_price w_OR with_search
       q_category q_brand q_minPrice q_maxPrice q_search].
  f_equal. unfold present.
  assert (Hempty : bool_decide (s1 = "") = bool_decide (s2 = "")).
  { apply bool_decide_ext.
    rewrite <- (toLowerCase_empty s1), <- (toLowerCase_empty s2). by rewrite Hsame. }
  rewrite Hempty. destruct (bool_decide (s2 = "")); [reflexivity|].
  cbn [existsb holds]. unfold contains_insensitive.
  by rewrite !toLowerCase_pattern, Hsame.
Qed.

Lemma search_ignores_case_witness :
  get_products (with_search (Some "SILK") second_of_three) catalogue
  = get_products (with_search (Some "silk") second_of_three) catalogue.
Proof. apply search_ignores_case. reflexivity. Defined.

(** X11.  An admin delete of a product does not remove the row: it sets
    [isActive] to [false] and leaves every other column.  From then on the
    product is in no public listing and not in the featured list, while a
    fetch by id still replies with it. *)
Theorem deactivated_product_is_hidden_not_gone id db p :
  products db !! id = Some p ->
  let r := delete_product id db in
  exists p',
    r = (Json 200 "Product deactivated", set_products (insert id p') db) /\
    isActive p' = false /\
    patched {| pb_name := None; pb_slug := None; pb_description := None;
               pb_price := None; pb_stock := None; pb_category := None;
               pb_brand := None; pb_isActive := Some (isActive p);
               pb_isFeatured := None; pb_viewCount := None; pb_salesCount := None;
               pb_lowStockAlert := None; pb_createdAt := None |} p' = p /\
    (forall q resp x, (get_products q r.2).1 = Json 200 resp ->
                      (id, x) ∉ pl_products resp) /\
    (forall found x, (get_featured r.2).1 = Json 200 found -> (id, x) ∉ found) /\
    (exists v, (get_product id r.2).1 = Json 200 v /\ pv_product v = p').
Proof.
  intros Hp r.
  set (p' := patched
               {| pb_name := None; pb_slug := None; pb_description := None;
                  pb_price := None; pb_stock := None; pb_category := None;
                  pb_brand := None; pb_isActive := Some false; pb_isFeatured := None;
                  pb_viewCount := None; pb_salesCount := None;
                  pb_lowStockAlert := None; pb_createdAt := None |} p).
  assert (Hrun : r = (Json 200 "Product deactivated", set_products (insert id p') db)).
  { subst r. unfold delete_product, handle, bind, update, ret. simpl.
    by rewrite Hp. }
  rewrite Hrun. cbn [snd]. clear Hrun r.
  assert (Hrow : products (set_products (insert id p') db) !! id = Some p')
    by apply lookup_insert_eq.
  exists p'. split; [reflexivity|]. split; [reflexivity|].
  split; [by destruct p|]. split; [|split].
  - intros q resp x Hlist Hin.
    destruct (get_products_sound _ _ _ Hlist _ _ Hin) as [Hx Hw].
    rewrite Hrow in Hx. injection Hx as <-.
    apply list_where_active in Hw. done.
  - intros found x Hlist Hin. rewrite get_featured_run in Hlist.
    injection Hlist as <-. apply subseteq_take in Hin.
    rewrite sort_by_perm in Hin. unfold matching in Hin.
    apply list_elem_of_filter in Hin as [Hw Hin].
    apply elem_of_map_to_list in Hin.
    change (rows prisma_product ?d) with (products d) in Hin.
    rewrite Hrow in Hin. injection Hin as <-. done.
  - rewrite (get_product_run _ _ _ Hrow). eauto.
Qed.

Lemma deactivated_product_is_hidden_not_gone_witness :
  (forall resp x,
     (get_products accessories_10_50 (Admin.delete_product "p1" catalogue).2).1
       = Json 200 resp -> ("p1", x) ∉ pl_products resp) /\
  exists v, (get_product "p1" (Admin.delete_product "p1" catalogue).2).1 = Json 200 v.
Proof.
  destruct (deactivated_product_is_hidden_not_gone "p1" catalogue
              (product "Silk Scarf" "Accessories" 35 true 7) eq_refl)
    as (p' & _ & _ & _ & Hlist & _ & v & Hfetch & _).
  split; [apply Hlist | by exists v].
Defined.

(** What [GET /orders] replies when the window and the status are valid. *)
Lemma get_orders_run (valid_status : string -> bool) q_status q_page q_limit db :
  let page_ := default 1 q_page in
  let limit_ := default 20 q_limit in
  let all :=
    sort_by (fun a b : string * Order => orderCreatedAt b.2 <=? orderCreatedAt a.2)
      (matching prisma_order
         (fun _ o => Admin.matches
            {| w_status := present q_status; w_status_in := None;
               w_createdAt := None |} o) db) in
  0 <= (page_ - 1) * limit_ -> 0 <= limit_ ->
  (forall s, present q_status = Some s -> valid_status s = true) ->
  exists resp,
    get_orders valid_status q_status q_page q_limit db = (Json 200 resp, db) /\
    (fun v => (ov_id v, ov_order v)) <$> ol_orders resp
      = take (Z.to_nat limit_) (drop (Z.to_nat ((page_ - 1) * limit_)) all) /\
    ol_pagination resp = pagination_of page_ limit_ (Z.of_nat (length all)).
Proof.
  intros page_ limit_ all Hskip Hlimit Hvalid.
  unfold get_orders, handle, bind, ret, get, throw. fold page_ limit_.
  assert (Hcheck : forall db0 : Db,
            match present q_status with
            | Some s => if valid_status s then (fun s0 : Db => (inr tt, s0))
                        else (fun s0 : Db =>
                                (inl "Invalid value for argument `status`.", s0))
            | None => fun s0 : Db => (inr tt, s0)
            end db0 = (@inr string unit tt, db0)).
  { intros db0. destruct (present q_status) as [s|]; [|done].
    by rewrite (Hvalid s eq_refl). }
  rewrite Hcheck. rewrite findMany_page by done.
  rewrite (count_matching prisma_order _
             (fun a b => orderCreatedAt b.2 <=? orderCreatedAt a.2)).
  eexists. split; [reflexivity|]. simpl. split; [|done].
  rewrite <- list_fmap_compose. fold all.
  generalize (take (Z.to_nat limit_) (drop (Z.to_nat ((page_ - 1) * limit_)) all)) as l.
  induction l as [|[i o] l IH]; [done|]. rewrite fmap_cons. f_equal. exact IH.
Qed.

Lemma pages_of_zero_limit page_ total_ :
  0 <= total_ -> pages (pagination_of page_ 0 total_) = None.
Proof.
  intros Htotal. unfold pagination_of, js_div. simpl.
  destruct (Qeq_bool (inject_Z total_) 0); [done|].
  by destruct (Qle_bool 0 (inject_Z total_)).
Qed.

(** X12.  A limit of 0 is not refused: the product listing and the admin
    order listing answer 200 with no rows, and [pages], the ceiling of a
    division by zero, is sent as [null]. *)
Theorem zero_limit_gives_empty_page (valid_status : string -> bool) db :
  (forall q le,
     q_limit q = Some 0 ->
     orderBy (default "createdAt" (q_sortBy q)) (default "desc" (q_order q)) = Some le ->
     exists resp,
       get_products q db = (Json 200 resp, db) /\
       pl_products resp = [] /\ pages (pl_pagination resp) = None) /\
  (forall q_status q_page,
     (forall s, present q_status = Some s -> valid_status s = true) ->
     exists resp,
       get_orders valid_status q_status q_page (Some 0) db = (Json 200 resp, db) /\
       ol_orders resp = [] /\ pages (ol_pagination resp) = None).
Proof.
  split.
  - intros q le Hzero Hle.
    pose proof (get_products_run q db le) as Hrun. cbv zeta in Hrun.
    rewrite Hzero in Hrun. simpl in Hrun.
    rewrite Hrun by (done || lia). eexists. split; [reflexivity|]. simpl.
    split; [done|]. apply (pages_of_zero_limit 0). lia.
  - intros q_status q_page Hvalid.
    destruct (get_orders_run valid_status q_status q_page (Some 0) db)
      as (resp & Hrun & Hrows & Hpg); [simpl; lia | done | done |].
    exists resp. split; [done|]. simpl in Hrows, Hpg. split.
    + by destruct (ol_orders resp).
    + rewrite Hpg. apply pages_of_zero_limit. lia.
Qed.

Lemma zero_limit_gives_empty_page_witness :
  exists resp,
    get_orders known_status None (Some 3) (Some 0) ledger = (Json 200 resp, ledger) /\
    ol_orders resp = [] /\ pages (ol_pagination resp) = None.
Proof.
  destruct (zero_limit_gives_empty_page known_status ledger) as [_ Horders].
  apply (Horders None (Some 3)). discriminate.
Defined.
End MoreListing.

(** ** More on the admin handlers *)

Section SlugMore.
Import Admin Samples.

Lemma lower_char_spec c :
  is_upper (lower_char c) = false /\
  is_space (lower_char c) = is_space c /\
  (is_upper c = false -> lower_char c = c).
Proof.
  destruct c as [[] [] [] [] [] [] [] []]; vm_compute; repeat split; congruence.
Qed.

Lemma toLowerCase_no_upper s :
  all_chars (fun c => negb (is_upper c)) (toLowerCase s) = true.
Proof.
  induction s as [|c r IH]; [done|]. simpl. rewrite IH.
  by destruct (lower_char_spec c) as [-> _].
Qed.

Lemma toLowerCase_fixed s :
  all_chars (fun c => negb (is_upper c)) s = true -> toLowerCase s = s.
Proof.
  induction s as [|c r IH]; [done|]. simpl.
  intros [Hc Hr]%andb_true_iff. rewrite (IH Hr).
  destruct (lower_char_spec c) as (_ & _ & Hfix).
  rewrite Hfix; [done|]. by destruct (is_upper c).
Qed.

Lemma toLowerCase_length s : String.length (toLowerCase s) = String.length s.
Proof. induction s as [|c r IH]; [done|]. simpl. by rewrite IH. Qed.

Lemma skip_spaces_all P s :
  all_chars P s = true -> all_chars P (skip_spaces s) = true.
Proof.
  induction s as [|c r IH]; [done|]. simpl. intros [Hc Hr]%andb_true_iff.
  destruct (is_space c); [by apply IH|]. simpl. by rewrite Hc, Hr.
Qed.

Lemma skip_spaces_length s : (String.length (skip_spaces s) <= String.length s)%nat.
Proof.
  induction s as [|c r IH]; [done|]. simpl. destruct (is_space c); simpl; lia.
Qed.

(** The replacement leaves no white space, and brings in no capital. *)
Lemma replace_spaces_clean s :
  all_chars (fun c => negb (is_upper c)) s = true ->
  all_chars (fun c => negb (is_space c) && negb (is_upper c)) (replace_spaces s) = true.
Proof.
  funelim (replace_spaces s); intros Hs.
  - done.
  - simpl in Hs. apply andb_true_iff in Hs as [_ Hr].
    simpl. apply H. by apply skip_spaces_all.
  - simpl in Hs. apply andb_true_iff in Hs as [Hc Hr].
    simpl. rewrite Heq, Hc. simpl. by apply H.
Qed.

Lemma replace_spaces_fixed s :
  all_chars (fun c => negb (is_space c)) s = true -> replace_spaces s = s.
Proof.
  funelim (replace_spaces s); intros Hs.
  - done.
  - simpl in Hs. by rewrite Heq in Hs.
  - simpl in Hs. apply andb_true_iff in Hs as [_ Hr]. by rewrite (H Hr).
Qed.

Lemma replace_spaces_length s :
  (String.length (replace_spaces s) <= String.length s)%nat.
Proof.
  funelim (replace_spaces s); simpl.
  - done.
  - pose proof (skip_spaces_length r). lia.
  - lia.
Qed.

Lemma all_chars_weaken (P Q : ascii -> bool) s :
  (forall c, P c = true -> Q c = true) ->
  all_chars P s = true -> all_chars Q s = true.
Proof.
  intros Hsub. induction s as [|c r IH]; [done|]. simpl.
  intros [Hc Hr]%andb_true_iff. by rewrite (Hsub c Hc), (IH Hr).
Qed.

Lemma lower_char_7bit c : is_7bit c = true -> is_7bit (lower_char c) = true.
Proof.
  destruct c as [[] [] [] [] [] [] [] []]; vm_compute; congruence.
Qed.

Lemma toLowerCase_plain s : is_plain s = true -> is_plain (toLowerCase s) = true.
Proof.
  unfold is_plain. induction s as [|c r IH]; [done|]. simpl.
  intros [Hc Hr]%andb_true_iff. by rewrite (lower_char_7bit _ Hc), (IH Hr).
Qed.

Lemma replace_spaces_plain s : is_plain s = true -> is_plain (replace_spaces s) = true.
Proof.
  unfold is_plain. funelim (replace_spaces s); intros Hs.
  - done.
  - simpl in Hs. apply andb_true_iff in Hs as [_ Hr].
    simpl. apply H. by apply skip_spaces_all.
  - simpl in Hs. apply andb_true_iff in Hs as [Hc Hr].
    simpl. rewrite Hc. simpl. by apply H.
Qed.

(** X13.  The slug of a name of 7-bit characters is again of 7-bit
    characters, holds no white space and no capital letter, is never longer
    than the name, and is its own slug. *)
Theorem slug_is_clean_and_stable name :
  is_plain name = true ->
  is_plain (slug_of name) = true /\
  all_chars (fun c => negb (is_space c) && negb (is_upper c)) (slug_of name) = true /\
  (String.length (slug_of name) <= String.length name)%nat /\
  slug_of (slug_of name) = slug_of name.
Proof.
  intros Hplain. unfold slug_of.
  pose proof (replace_spaces_clean _ (toLowerCase_no_upper name)) as Hclean.
  split; [by apply replace_spaces_plain, toLowerCase_plain|].
  split; [done|]. split.
  - rewrite <- (toLowerCase_length name). apply replace_spaces_length.
  - rewrite toLowerCase_fixed.
    + apply replace_spaces_fixed. eapply all_chars_weaken; [|apply Hclean].
      intros c. by intros [? _]%andb_true_iff.
    + eapply all_chars_weaken; [|apply Hclean].
      intros c. by intros [_ ?]%andb_true_iff.
Qed.

Lemma slug_is_clean_and_stable_witness :
  slug_of "Silk  Scarf" = "silk-scarf" /\
  slug_of (slug_of "Silk  Scarf") = slug_of "Silk  Scarf".
Proof.
  split; [vm_compute; reflexivity|].
  apply (slug_is_clean_and_stable "Silk  Scarf"). reflexivity.
Defined.
End SlugMore.

Section AdminMore.
Import Admin Samples.

(** X14.  The slug of a product is derived once, at creation: a [slug] in
    the body of the create is overwritten by the one derived from the name;
    a later update that renames the product leaves the slug as it was, and
    an update that carries a slug stores it as it is sent. *)
Theorem slug_is_set_at_creation_only body newId db :
  products db !! newId = None ->
  let r := post_products [] body newId db in
  (forall s, post_products [] (with_slug s body) newId db = r) /\
  (forall renamed,
     let patch :=
       {| pb_name := Some renamed; pb_slug := None; pb_description := None;
          pb_price := None; pb_stock := None; pb_category := None; pb_brand := None;
          pb_isActive := None; pb_isFeatured := None; pb_viewCount := None;
          pb_salesCount := None; pb_lowStockAlert := None; pb_createdAt := None |} in
     exists row,
       products (put_product newId patch r.2).2 !! newId = Some row /\
       productName row = renamed /\ slug row = slug_of (productName body)) /\
  (forall sent,
     let patch :=
       {| pb_name := None; pb_slug := Some sent; pb_description := None;
          pb_price := None; pb_stock := None; pb_category := None; pb_brand := None;
          pb_isActive := None; pb_isFeatured := None; pb_viewCount := None;
          pb_salesCount := None; pb_lowStockAlert := None; pb_createdAt := None |} in
     exists row,
       products (put_product newId patch r.2).2 !! newId = Some row /\
       slug row = sent).
Proof.
  intros Hfresh r.
  assert (Hrun : r = (Json 201 (newId, with_slug (slug_of (productName body)) body),
                      set_products
                        (insert newId (with_slug (slug_of (productName body)) body)) db)).
  { subst r. unfold post_products, handle, bind, create, ret. simpl.
    by rewrite Hfresh. }
  rewrite Hrun. cbn [snd]. clear Hrun r.
  assert (Hput : forall patch,
            products (put_product newId patch
                        (set_products
                           (insert newId (with_slug (slug_of (productName body)) body))
                           db)).2 !! newId
            = Some (patched patch (with_slug (slug_of (productName body)) body))).
  { intros patch. unfold put_product, handle, bind, update, ret. simpl.
    rewrite lookup_insert_eq. simpl. apply lookup_insert_eq. }
  split; [|split].
  - intros s. unfold post_products, handle, bind, create, ret. simpl.
    by rewrite Hfresh.
  - intros renamed. cbv zeta. rewrite Hput. eauto.
  - intros sent. cbv zeta. rewrite Hput. eauto.
Qed.

Lemma slug_is_set_at_creation_only_witness :
  exists row,
    products (put_product "p1"
                {| pb_name := Some "Blue Wool Scarf"; pb_slug := None;
                   pb_description := None; pb_price := None; pb_stock := None;
                   pb_category := None; pb_brand := None; pb_isActive := None;
                   pb_isFeatured := None; pb_viewCount := None; pb_salesCount := None;
                   pb_lowStockAlert := None; pb_createdAt := None |}
                (post_products [] scarf "p1" empty_db).2).2 !! "p1" = Some row /\
    productName row = "Blue Wool Scarf" /\ slug row = "red-silk-scarf-".
Proof.
  destruct (slug_is_set_at_creation_only scarf "p1" empty_db eq_refl)
    as (_ & Hrename & _).
  apply (Hrename "Blue Wool Scarf").
Defined.

(** X15.  The admin writes look no row up before they update it: on an id
    that no row has, the order status update, the product update, the
    product deactivation, the stock update and the tier update all answer
    500, not 404, and leave the database as it was. *)
Theorem admin_update_of_missing_row_is_500
    (valid_status valid_tier : string -> bool) id db :
  (orders db !! id = None ->
     forall b_status now,
       exists msg, put_order_status valid_status id b_status now db
                   = (Failure 500 msg, db)) /\
  (products db !! id = None ->
     (forall body, exists msg, put_product id body db = (Failure 500 msg, db)) /\
     (exists msg, delete_product id db = (Failure 500 msg, db)) /\
     (forall b_stock, exists msg, put_product_stock id b_stock db = (Failure 500 msg, db))) /\
  (users db !! id = None ->
     forall b_tier, exists msg, put_user_tier valid_tier id b_tier db
                                = (Failure 500 msg, db)).
Proof.
  split; [|split].
  - intros Hnone b_status now.
    unfold put_order_status, handle, bind, update. simpl. rewrite Hnone. eauto.
  - intros Hnone. split; [|split].
    + intros body. unfold put_product, handle, bind, update. simpl.
      rewrite Hnone. eauto.
    + unfold delete_product, handle, bind, update. simpl. rewrite Hnone. eauto.
    + intros b_stock. unfold put_product_stock, handle, bind, update. simpl.
      rewrite Hnone. eauto.
  - intros Hnone b_tier. unfold put_user_tier, handle, bind, update. simpl.
    rewrite Hnone. eauto.
Qed.

Lemma admin_update_of_missing_row_is_500_witness :
  (exists msg, put_order_status known_status "o9" (Some "DELIVERED") 999 ledger
               = (Failure 500 msg, ledger)) /\
  (exists msg, delete_product "p9" ledger = (Failure 500 msg, ledger)).
Proof.
  destruct (admin_update_of_missing_row_is_500 known_status known_tier "o9" ledger)
    as (Horder & _).
  destruct (admin_update_of_missing_row_is_500 known_status known_tier "p9" ledger)
    as (_ & Hproduct & _).
  split.
  - apply Horder. reflexivity.
  - apply Hproduct. reflexivity.
Defined.

(** What the status update does on an order that exists, for a status of
    the enum. *)
Lemma put_order_status_run (valid_status : string -> bool) id s now db o :
  orders db !! id = Some o -> valid_status s = true ->
  let o' := with_status (Some s)
              (if bool_decide (s = "DELIVERED") then Some now else None) o in
  exists v,
    put_order_status valid_status id (Some s) now db
    = (Json 200 v, set_orders (insert id o') db) /\ ov_order v = o'.
Proof.
  intros Ho Hs o'. unfold put_order_status, handle, bind, update, get, ret.
  simpl. rewrite Ho, Hs. simpl. eauto.
Qed.

(** X16.  The delivery time is a stamp of the last DELIVERED update, and it
    is never cleared: a second DELIVERED update overwrites [deliveredAt]
    with its own time, and an update to another status leaves the stamp on
    an order that is no longer DELIVERED. *)
Theorem delivered_stamp_is_overwritten_never_cleared
    (valid_status : string -> bool) id db o t1 t2 s :
  orders db !! id = Some o ->
  valid_status "DELIVERED" = true -> valid_status s = true -> s <> "DELIVERED" ->
  let db1 := (put_order_status valid_status id (Some "DELIVERED") t1 db).2 in
  let again := (put_order_status valid_status id (Some "DELIVERED") t2 db1).2 in
  let back := (put_order_status valid_status id (Some s) t2 db1).2 in
  (deliveredAt <$> orders db1 !! id) = Some (Some t1) /\
  (deliveredAt <$> orders again !! id) = Some (Some t2) /\
  (exists o', orders back !! id = Some o' /\
              status o' = s /\ deliveredAt o' = Some t1).
Proof.
  intros Ho Hdelivered Hs Hne db1 again back.
  destruct (put_order_status_run valid_status id "DELIVERED" t1 db o Ho Hdelivered)
    as (v1 & Hrun1 & _).
  assert (Hdb1 : db1 = set_orders
                         (insert id (with_status (Some "DELIVERED") (Some t1) o)) db)
    by (subst db1; by rewrite Hrun1).
  assert (Hrow1 : orders db1 !! id = Some (with_status (Some "DELIVERED") (Some t1) o))
    by (rewrite Hdb1; apply lookup_insert_eq).
  split; [by rewrite Hrow1|]. split.
  - destruct (put_order_status_run valid_status id "DELIVERED" t2 db1 _ Hrow1 Hdelivered)
      as (v2 & Hrun2 & _).
    subst again. rewrite Hrun2. simpl. by rewrite lookup_insert_eq.
  - destruct (put_order_status_run valid_status id s t2 db1 _ Hrow1 Hs)
      as (v3 & Hrun3 & _).
    subst back. rewrite Hrun3. simpl. rewrite lookup_insert_eq.
    eexists. split; [reflexivity|].
    by rewrite (bool_decide_eq_false_2 _ Hne).
Qed.

Lemma delivered_stamp_is_overwritten_never_cleared_witness :
  exists o',
    orders (put_order_status known_status "o2" (Some "PENDING") 20
              (put_order_status known_status "o2" (Some "DELIVERED") 10 ledger).2).2
      !! "o2" = Some o' /\
    status o' = "PENDING" /\ deliveredAt o' = Some 10.
Proof.
  destruct (delivered_stamp_is_overwritten_never_cleared known_status "o2" ledger
              (order_of "CONFIRMED" 35 200 None) 10 20 "PENDING")
    as (_ & _ & Hback); [reflexivity | reflexivity | reflexivity | discriminate |].
  exact Hback.
Defined.

(** X17.  A tier update with a tier of the enum writes the [tier] column of
    that user and nothing else: the email, the name, the phone and the role
    stay, and so do all other users and tables.  A tier outside the enum is
    refused with a 500 and nothing is written. *)
Theorem tier_update_writes_the_tier_only (valid_tier : string -> bool) id t_ db u :
  users db !! id = Some u ->
  let r := put_user_tier valid_tier id (Some t_) db in
  (valid_tier t_ = true ->
     exists u',
       r.1 = Json 200 {| tv_id := id; tv_email := email u; tv_name := userName u;
                         tv_tier := t_ |} /\
       users r.2 !! id = Some u' /\ tier u' = t_ /\
       email u' = email u /\ userName u' = userName u /\
       phone u' = phone u /\ role u' = role u /\
       (forall j, j <> id -> users r.2 !! j = users db !! j) /\
       set_users (fun _ => users db) r.2 = db) /\
  (valid_tier t_ = false -> exists msg, r = (Failure 500 msg, db)).
Proof.
  intros Hu r. subst r. unfold put_user_tier, handle, bind, update, ret. simpl.
  rewrite Hu. split; intros Hvalid; rewrite Hvalid; simpl.
  - eexists. split; [reflexivity|]. split; [apply lookup_insert_eq|]. simpl.
    do 5 (split; [done|]).
    split; [intros j Hj; by apply lookup_insert_ne|]. by destruct db.
  - eauto.
Qed.

Lemma tier_update_writes_the_tier_only_witness :
  (role <$> users (put_user_tier known_tier "u1" (Some "SILVER") ledger).2 !! "u1")
    = Some "CUSTOMER" /\
  exists msg, put_user_tier known_tier "u1" (Some "ADMIN") ledger = (Failure 500 msg, ledger).
Proof.
  destruct (tier_update_writes_the_tier_only known_tier "u1" "SILVER" ledger _ eq_refl)
    as [Hok _].
  destruct (tier_update_writes_the_tier_only known_tier "u1" "ADMIN" ledger _ eq_refl)
    as [_ Hbad].
  split.
  - destruct (Hok eq_refl) as (u' & _ & Hrow & _ & _ & _ & _ & Hrole & _).
    rewrite Hrow. simpl. by rewrite Hrole.
  - apply Hbad. reflexivity.
Defined.
End AdminMore.

Section ReportsMore.
Import Admin Samples.

(** What the sales report replies. *)
Lemma get_sales_report_run startDate endDate db :
  let found := matching prisma_order
                 (fun _ o => Admin.matches (sales_where startDate endDate) o) db in
  let listed := sales_view db <$> found in
  let revenue := fold_left (fun sum order => (sum + total (ov_order order))%Q) listed 0%Q in
  get_sales_report startDate endDate db =
  (Json 200 {| totalRevenue := revenue;
               totalOrders := Z.of_nat (length listed);
               averageOrderValue :=
                 or_zero (js_div revenue (inject_Z (Z.of_nat (length listed))));
               sr_orders := listed |}, db).
Proof.
  unfold get_sales_report, handle, bind, findMany, get, ret, window. simpl.
  rewrite sort_by_unordered. change (Z.to_nat 0) with 0%nat. by rewrite drop_0.
Qed.

Lemma sales_where_matches startDate endDate o :
  Admin.matches (sales_where startDate endDate) o = true <->
  (status o = "DELIVERED" \/ status o = "CONFIRMED") /\
  (forall lo hi, startDate = Some lo -> endDate = Some hi ->
                 lo <= orderCreatedAt o <= hi).
Proof.
  unfold Admin.matches, sales_where. simpl.
  rewrite andb_true_iff, bool_decide_eq_true.
  assert (Hin : status o ∈ ["DELIVERED"; "CONFIRMED"] <->
                status o = "DELIVERED" \/ status o = "CONFIRMED").
  { rewrite elem_of_cons, list_elem_of_singleton. tauto. }
  rewrite Hin.
  destruct startDate as [lo|], endDate as [hi|]; simpl;
    try (split; [intros [? _]; split; [done | by intros ? ? [=]] | by intros [? _]]).
  rewrite andb_true_iff, !Z.leb_le. split.
  - intros [? ?]. split; [done|]. by intros ? ? [= <-] [= <-].
  - intros [? H]. split; [done|]. by apply H.
Qed.

Lemma sum_of_views db (l : list (string * Order)) :
  sum_of_totals (sales_view db <$> l) = sum_of_order_totals l.
Proof.
  induction l as [|io l IH]; [done|]. rewrite fmap_cons.
  change (sum_of_totals (sales_view db io :: (sales_view db <$> l)))
    with (total io.2 + sum_of_totals (sales_view db <$> l))%Q.
  by rewrite IH.
Qed.

(** X18.  The date range of the sales report takes both dates or none: with
    only one of them the report is that of a request without dates.  With
    both, the orders reported are the DELIVERED and CONFIRMED orders created
    from the first to the second instant, all of them; and when the second
    instant is before the first the report is empty, with 0 orders, revenue
    0 and average 0. *)
Theorem sales_report_date_range startDate endDate db :
  get_sales_report (Some startDate) None db = get_sales_report None None db /\
  get_sales_report None (Some endDate) db = get_sales_report None None db /\
  exists rep,
    get_sales_report (Some startDate) (Some endDate) db = (Json 200 rep, db) /\
    (forall i o,
       (exists v, v ∈ sr_orders rep /\ ov_id v = i /\ ov_order v = o) <->
       orders db !! i = Some o /\
       (status o = "DELIVERED" \/ status o = "CONFIRMED") /\
       startDate <= orderCreatedAt o <= endDate) /\
    (endDate < startDate ->
       sr_orders rep = [] /\ totalOrders rep = 0 /\
       totalRevenue rep = 0%Q /\ averageOrderValue rep = Finite 0).
Proof.
  split; [reflexivity|]. split; [reflexivity|].
  rewrite get_sales_report_run. cbv zeta.
  set (found := matching prisma_order _ db).
  assert (Hfound : forall i o, (i, o) ∈ found <->
            orders db !! i = Some o /\
            (status o = "DELIVERED" \/ status o = "CONFIRMED") /\
            startDate <= orderCreatedAt o <= endDate).
  { intros i o. unfold found, matching. rewrite list_elem_of_filter.
    rewrite elem_of_map_to_list. simpl. rewrite sales_where_matches.
    split.
    - intros [[? H] ?]. split; [done|]. split; [done|]. by apply H.
    - intros (? & ? & ?). split; [|done]. split; [done|].
      by intros ? ? [= <-] [= <-]. }
  eexists. split; [reflexivity|]. simpl. split.
  - intros i o. rewrite <- Hfound. split.
    + intros (v & ([i' o'] & -> & Hin)%list_elem_of_fmap & <- & <-). done.
    + intros Hin. exists (sales_view db (i, o)). split; [|done].
      apply list_elem_of_fmap. by exists (i, o).
  - intros Hempty.
    assert (Hnone : found = []).
    { destruct found as [|[i o] l]; [done|].
      destruct (Hfound i o) as [Hin _]. specialize (Hin ltac:(left)). lia. }
    rewrite Hnone. done.
Qed.

Lemma sales_report_date_range_witness :
  exists rep,
    get_sales_report (Some 150) (Some 250) ledger = (Json 200 rep, ledger) /\
    exists v, v ∈ sr_orders rep /\ ov_id v = "o2" /\
              ov_order v = order_of "CONFIRMED" 35 200 None.
Proof.
  destruct (sales_report_date_range 150 250 ledger) as (_ & _ & rep & Hrun & Hrows & _).
  exists rep. split; [exact Hrun|]. apply Hrows.
  split; [reflexivity|]. split; [by right|]. simpl. lia.
Defined.

Lemma or_zero_null_eq x q : x = Some q -> (or_zero_null x == q)%Q.
Proof.
  intros ->. unfold or_zero_null. destruct (Qeq_bool q 0) eqn:Hz; [|done].
  apply Qeq_bool_iff in Hz. by rewrite Hz.
Qed.

(** X19.  The dashboard is read-only and counts the store: all orders, the
    PENDING ones among them, all users, and the products, active or not,
    whose stock is at or below their own alert level.  Its revenue is the
    sum of the totals of the DELIVERED and CONFIRMED orders, 0 when there
    is none, and equals the revenue of the sales report without dates. *)
Theorem dashboard_stats_count_the_store db :
  let paid := filter (fun io : string * Order =>
                        status io.2 = "DELIVERED" \/ status io.2 = "CONFIRMED")
                (map_to_list (orders db)) in
  exists st,
    get_stats db = (Json 200 st, db) /\
    st_totalOrders st = Z.of_nat (size (orders db)) /\
    st_pendingOrders st =
      Z.of_nat (length (filter (fun io : string * Order => status io.2 = "PENDING")
                          (map_to_list (orders db)))) /\
    0 <= st_pendingOrders st <= st_totalOrders st /\
    st_totalUsers st = Z.of_nat (size (users db)) /\
    st_lowStockProducts st =
      Z.of_nat (length (filter (fun ip : string * Product =>
                                  stock ip.2 <= lowStockAlert ip.2)
                          (map_to_list (products db)))) /\
    (st_totalRevenue st == sum_of_order_totals paid)%Q /\
    (paid = [] -> st_totalRevenue st = 0%Q) /\
    (exists rep, get_sales_report None None db = (Json 200 rep, db) /\
                 (totalRevenue rep == st_totalRevenue st)%Q).
Proof.
  intros paid.
  assert (Hall : forall {Row} (t : Delegate Row) d,
            matching t (fun _ _ => true) d = map_to_list (rows t d)).
  { intros Row t d. unfold matching.
    induction (map_to_list (rows t d)) as [|x l IH]; [done|].
    rewrite filter_cons_True by done. by rewrite IH. }
  assert (Hpaid : matching prisma_order
                    (fun _ o => Admin.matches (sales_where None None) o) db = paid).
  { unfold matching, paid. apply list_filter_iff. intros [i o]. simpl.
    rewrite sales_where_matches. split; [by intros [? _]|].
    intros ?. split; [done|]. by intros ? ? [=]. }
  assert (Hpending :
    matching prisma_order
      (fun _ o => Admin.matches {| w_status := Some "PENDING"; w_status_in := None;
                                   w_createdAt := None |} o) db
    = filter (fun io : string * Order => status io.2 = "PENDING")
        (map_to_list (orders db))).
  { unfold matching. apply list_filter_iff. intros [i o].
    unfold Admin.matches. simpl. rewrite !andb_true_r. apply bool_decide_eq_true. }
  assert (Hlow :
    matching prisma_product (fun _ p => stock p <=? lowStockAlert p) db
    = filter (fun ip : string * Product => stock ip.2 <= lowStockAlert ip.2)
        (map_to_list (products db))).
  { unfold matching. apply list_filter_iff. intros [i p]. simpl. apply Z.leb_le. }
  unfold get_stats, handle, bind, count, aggregate_sum_total, ret.
  rewrite !Hall.
  change (matching prisma_order
            (fun _ o => Admin.matches
               {| w_status := None; w_status_in := Some ["DELIVERED"; "CONFIRMED"];
                  w_createdAt := None |} o) db)
    with (matching prisma_order
            (fun _ o => Admin.matches (sales_where None None) o) db).
  rewrite Hpaid, Hpending, Hlow.
  eexists. split; [reflexivity|].
  cbn [st_totalOrders st_pendingOrders st_totalRevenue st_totalUsers
       st_lowStockProducts].
  split; [by rewrite length_map_to_list|]. split; [done|].
  split.
  { split; [lia|]. apply inj_le. apply length_filter. }
  split; [by rewrite length_map_to_list|]. split; [done|].
  assert (Hrevenue :
    (or_zero_null match paid with
                  | [] => None
                  | io :: l => Some (sum_of_order_totals (io :: l))
                  end == sum_of_order_totals paid)%Q).
  { destruct paid as [|io l]; [done|]. by apply or_zero_null_eq. }
  split; [exact Hrevenue|]. split; [by intros ->|].
  rewrite get_sales_report_run. cbv zeta. rewrite Hpaid.
  eexists. split; [reflexivity|]. cbn [totalRevenue].
  rewrite Hrevenue, fold_left_totals, sum_of_views. apply Qplus_0_l.
Qed.

Lemma dashboard_stats_count_the_store_witness :
  exists st,
    get_stats ledger = (Json 200 st, ledger) /\
    st_totalOrders st = 4 /\ st_pendingOrders st = 1 /\
    (st_totalRevenue st == 105)%Q.
Proof.
  destruct (dashboard_stats_count_the_store ledger)
    as (st & Hrun & Horders & Hpending & _ & _ & _ & Hrevenue & _).
  exists st. split; [exact Hrun|].
  split; [by rewrite Horders|]. split; [by rewrite Hpending|].
  rewrite Hrevenue. vm_compute. reflexivity.
Defined.
End ReportsMore.

(** ** Handlers in sequence *)

Section Sequences.
Import Users Products Admin Samples.

Lemma increment_viewCount_add a b p :
  increment_viewCount a (increment_viewCount b p) = increment_viewCount (b + a) p.
Proof. destruct p. unfold increment_viewCount. simpl. f_equal. lia. Qed.

Lemma increment_viewCount_zero p : increment_viewCount 0 p = p.
Proof. destruct p. unfold increment_viewCount. simpl. f_equal. lia. Qed.

(** X20.  [n] fetches of a product in a row add [n] to its view counter and
    change nothing else: not another column of the product, not another
    product, not another table. *)
Theorem views_count_every_fetch id db p (n : nat) :
  products db !! id = Some p ->
  let db' := Nat.iter n (fun d => (get_product id d).2) db in
  products db' !! id = Some (increment_viewCount (Z.of_nat n) p) /\
  (forall j, j <> id -> products db' !! j = products db !! j) /\
  set_products (fun _ => products db) db' = db.
Proof.
  intros Hp. induction n as [|n (Hrow & Hothers & Hframe)].
  - simpl. rewrite increment_viewCount_zero. split; [done|]. split; [done|].
    by destruct db.
  - cbv zeta. rewrite Nat.iter_succ.
    set (db1 := Nat.iter n (fun d => (get_product id d).2) db) in *.
    rewrite (get_product_run _ _ _ Hrow). cbn [snd].
    split; [|split].
    + simpl. rewrite lookup_insert_eq, increment_viewCount_add.
      do 2 f_equal. lia.
    + intros j Hj. simpl. rewrite lookup_insert_ne by done. by apply Hothers.
    + unfold set_products in *. destruct db1, db. simpl in *. congruence.
Qed.

Lemma views_count_every_fetch_witness :
  (viewCount <$>
     products (Nat.iter 3 (fun d => (get_product "p1" d).2) catalogue) !! "p1")
  = Some 10.
Proof.
  destruct (views_count_every_fetch "p1" catalogue
              (product "Silk Scarf" "Accessories" 35 true 7) 3 eq_refl) as [Hrow _].
  rewrite Hrow. reflexivity.
Defined.

(** X21.  An address created with a well-typed body and the default flag,
    as a row that the store takes, comes first in the caller's next address
    listing, and it is the only default one there. *)
Theorem new_default_address_is_listed_first accepts caller body newId db :
  addresses db !! newId = None -> b_isDefault body = Some true ->
  accepts (created_row caller body) = true ->
  let db' := (post_addresses accepts caller [] (raw_of body) newId db).2 in
  exists others,
    get_addresses caller db'
    = (Json 200 ((newId, created_row caller body) :: others), db') /\
    Forall (fun ia => isDefault ia.2 = false) others.
Proof.
  intros Hfresh Hflag Hok db'.
  assert (Hsole : sole_default caller newId (addresses db')).
  { subst db'. rewrite (post_addresses_run _ _ _ _ _ Hfresh Hok). simpl.
    rewrite Hflag. simpl. apply sole_default_insert; [done| |by left].
    unfold created_row. simpl. by rewrite Hflag. }
  assert (Hrow : addresses db' !! newId = Some (created_row caller body)).
  { subst db'. rewrite (post_addresses_run _ _ _ _ _ Hfresh Hok). simpl.
    apply lookup_insert_eq. }
  unfold get_addresses, handle, bind, get, ret. cbn [fst snd].
  set (own := filter (fun ia : string * Address => userId ia.2 = caller)
                (map_to_list (addresses db'))).
  assert (Hdefaults :
    filter (fun ia : string * Address => isDefault ia.2 = true) own
    = [(newId, created_row caller body)]).
  { apply nodup_singleton.
    - apply NoDup_filter, NoDup_filter, NoDup_map_to_list.
    - destruct Hsole as [(a & Ha & Hu & Hd) _].
      rewrite Hrow in Ha. injection Ha as <-.
      apply list_elem_of_filter. split; [done|].
      apply list_elem_of_filter. split; [done|]. by apply elem_of_map_to_list.
    - intros [i a] [Hd [Hu Hin]%list_elem_of_filter]%list_elem_of_filter.
      simpl in *. apply elem_of_map_to_list in Hin.
      destruct Hsole as [_ Huniq]. assert (i = newId) as -> by eauto.
      congruence. }
  exists (filter (fun ia : string * Address => isDefault ia.2 = false) own).
  split.
  - simpl. fold own. by rewrite Hdefaults.
  - apply Forall_forall. by intros ia [Hd _]%list_elem_of_filter.
Qed.

Lemma new_default_address_is_listed_first_witness :
  exists others,
    get_addresses "u1" (post_addresses known_type "u1" [] (raw_of new_home) "a3" address_book).2
    = (Json 200 (("a3", created_row "u1" new_home) :: others),
       (post_addresses known_type "u1" [] (raw_of new_home) "a3" address_book).2).
Proof.
  assert (Hfresh : addresses address_book !! "a3" = None) by (vm_compute; reflexivity).
  destruct (new_default_address_is_listed_first known_type "u1" new_home "a3"
              address_book Hfresh eq_refl eq_refl) as (others & Hrun & _).
  exists others. exact Hrun.
Defined.

(** X22.  With page and limit at least 1 and a status of the enum (or
    none), every order of the admin order listing is a row of the store with
    the status asked for; it comes with the contact of its purchaser, its
    address and its own order lines, each line with its product; and the
    orders come newest first. *)
Theorem order_listing_is_filtered_and_joined
    (valid_status : string -> bool) q_status q_page q_limit db :
  1 <= default 1 q_page -> 1 <= default 20 q_limit ->
  (forall s, present q_status = Some s -> valid_status s = true) ->
  exists resp,
    get_orders valid_status q_status q_page q_limit db = (Json 200 resp, db) /\
    (forall v, v ∈ ol_orders resp ->
       orders db !! ov_id v = Some (ov_order v) /\
       (forall s, q_status = Some s -> s <> "" -> status (ov_order v) = s) /\
       ov_user v = contact_of <$> users db !! orderUser (ov_order v) /\
       ov_address v = addresses db !! orderAddress (ov_order v) /\
       (forall it, it ∈ ov_items v <->
          exists item, orderItems db !! iv_id it = Some item /\
                       iv_item it = item /\ itemOrder item = ov_id v /\
                       iv_product it = products db !! itemProduct item)) /\
    Sorted (fun a b => orderCreatedAt (ov_order b) <= orderCreatedAt (ov_order a))
      (ol_orders resp).
Proof.
  intros Hpage Hlimit Hvalid.
  set (le := fun a b : string * Order => orderCreatedAt b.2 <=? orderCreatedAt a.2).
  set (where_ := {| w_status := present q_status; w_status_in := None;
                    w_createdAt := None |}).
  set (view := fun io : string * Order =>
         {| ov_id := io.1; ov_order := io.2;
            ov_user := contact_of <$> users db !! orderUser io.2;
            ov_items := items_of true io.1 db;
            ov_address := addresses db !! orderAddress io.2 |}).
  set (all := sort_by le (matching prisma_order (fun _ o => Admin.matches where_ o) db)).
  set (rows_ := take (Z.to_nat (default 20 q_limit))
                  (drop (Z.to_nat ((default 1 q_page - 1) * default 20 q_limit)) all)).
  assert (Hrun : get_orders valid_status q_status q_page q_limit db
                 = (Json 200 {| ol_orders := view <$> rows_;
                                ol_pagination := pagination_of (default 1 q_page)
                                  (default 20 q_limit) (Z.of_nat (length all)) |}, db)).
  { unfold get_orders, handle, bind, ret, get, throw.
    assert (Hcheck : forall db0 : Db,
              match present q_status with
              | Some s => if valid_status s then (fun s0 : Db => (inr tt, s0))
                          else (fun s0 : Db =>
                                  (inl "Invalid value for argument `status`.", s0))
              | None => fun s0 : Db => (inr tt, s0)
              end db0 = (@inr string unit tt, db0)).
    { intros db0. destruct (present q_status) as [s|]; [|done].
      by rewrite (Hvalid s eq_refl). }
    rewrite Hcheck. rewrite findMany_page by nia.
    by rewrite (count_matching prisma_order _ le). }
  rewrite Hrun. eexists. split; [reflexivity|]. cbn [ol_orders].
  assert (Hsorted : Sorted (fun a b => le a b = true) rows_).
  { apply Sorted_take, Sorted_drop, sort_by_Sorted.
    intros a b. unfold le. lia. }
  split.
  - intros v ([i o] & -> & Hin)%list_elem_of_fmap. simpl.
    apply subseteq_take, subseteq_drop in Hin. unfold all in Hin.
    rewrite sort_by_perm in Hin. unfold matching in Hin.
    apply list_elem_of_filter in Hin as [Hw Hin].
    apply elem_of_map_to_list in Hin. simpl in Hw, Hin.
    split; [done|]. split; [|split; [done|split; [done|]]].
    + intros s Hs Hne. unfold Admin.matches, where_ in Hw. simpl in Hw.
      rewrite Hs in Hw. unfold present in Hw.
      rewrite (bool_decide_eq_false_2 _ Hne) in Hw. simpl in Hw.
      rewrite !andb_true_r in Hw. by apply bool_decide_eq_true in Hw.
    + intros it. unfold items_of. rewrite list_elem_of_fmap. split.
      * intros ([k item] & -> & [Hown Hitem%elem_of_map_to_list]%list_elem_of_filter).
        simpl in *. eauto.
      * intros (item & Hitem & Hi & Hown & Hprod).
        exists (iv_id it, item). split.
        -- destruct it as [k x pr]. simpl in *. by subst.
        -- apply list_elem_of_filter. split; [done|]. by apply elem_of_map_to_list.
  - clear Hrun. induction Hsorted as [|x l Hl IH Hhd]; [constructor|].
    rewrite fmap_cons. constructor; [done|].
    destruct Hhd as [|y l' Hxy]; [constructor|]. rewrite fmap_cons. constructor.
    simpl. unfold le in Hxy. lia.
Qed.

Lemma order_listing_is_filtered_and_joined_witness :
  exists resp,
    get_orders known_status (Some "DELIVERED") None None ledger = (Json 200 resp, ledger) /\
    ov_id <$> ol_orders resp = ["o1"].
Proof.
  destruct (order_listing_is_filtered_and_joined known_status (Some "DELIVERED")
              None None ledger) as (resp & Hrun & _);
    [simpl; lia | simpl; lia | by intros s [= <-] |].
  exists resp. split; [exact Hrun|].
  pose proof Hrun as Hresp. vm_compute in Hresp. injection Hresp as <-. reflexivity.
Defined.
End Sequences.
